(** * Supermarket sales: star-schema load and top-3 ranking report

    A shallow embedding of [main.py] (the pandas load that derives three
    dimension tables and a fact table and writes them to SQLite) and of
    [generate_report.py] (the windowed ranking query), with the properties
    the design document states about them.

    Conventions of the embedding.
    - A data frame with the fixed column set of the extract is a list of
      records, one record per row, in row order.
    - A missing cell (pandas [NaN], SQLite [NULL]) is [None].
    - A [float64] / [REAL] cell is represented by the number it holds, a
      rational ([Qc]); cells are compared as these numbers are.
    - The arithmetic of the database on such cells is floating-point
      arithmetic and is not computed here: the aggregate [SUM] and the
      function [ROUND] of the query are parameters of the report, which
      is described for whatever values they return.
    - [drop_duplicates] and [merge] compare cells for equality and treat
      two missing cells as equal, as pandas does. *)

From Stdlib Require Import Ascii QArith Qcanon Qround Qabs.
From stdpp Require Import base decidable option list list_numbers numbers.
From stdpp Require Import countable strings gmap sorting.

Local Open Scope Z_scope.

(** ** Cells *)

Abbreviation text := (option string).
Abbreviation real := (option Qc).
Abbreviation integer := (option Z).

Lemma Qc_of_Q_this (q : Qc) : Q2Qc (Qnum (this q) # Qden (this q)) = q.
Proof.
  destruct q as [[n d] Hc]. apply Qc_is_canon. simpl. apply Qred_correct.
Qed.

#[global] Instance Qc_countable : Countable Qc :=
  inj_countable' (λ q : Qc, (Qnum (this q), Qden (this q)))
                 (λ p, Q2Qc (p.1 # p.2)) Qc_of_Q_this.

(** [invoice_datetime] values; the fields are those of the format
    [%m/%d/%Y %I:%M:%S %p] after parsing. *)
Record Timestamp := MkTimestamp {
  ts_year : Z; ts_month : Z; ts_day : Z;
  ts_hour : Z; ts_minute : Z; ts_second : Z }.

(** ** The extract and the loaded frame

    [Csv.row] is one row of the extract as [pd.read_csv] returns it, with
    the header already renamed (lower case, spaces to underscores,
    [tax_5%] to [tax_amount], [payment] to [payment_mode]). The columns
    have the types of the extract: columns of strings, the [int64]
    column [quantity], and [float64] columns. An extract that pandas
    would type otherwise (a date column without any value, which it
    reads as numbers, or an integer beyond 64 bits) is not described. *)
Module Csv.
Record row := Build {
  invoice_id : text;
  branch : text;
  city : text;
  customer_type : text;
  gender : text;
  product_line : text;
  unit_price : real;
  quantity : integer;
  tax_amount : real;
  sales : real;
  date : text;
  time : text;
  payment_mode : text;
  cogs : real;
  gross_margin_percentage : real;
  gross_income : real;
  rating : real }.
End Csv.

(** [Df.row] is one row of [df] once [invoice_datetime] has been added;
    a missing timestamp (NaT) is [None]. *)
Module Df.
Record row := Build {
  cols : Csv.row;
  invoice_datetime : option Timestamp }.
Definition branch r := Csv.branch (cols r).
Definition city r := Csv.city (cols r).
Definition customer_type r := Csv.customer_type (cols r).
Definition gender r := Csv.gender (cols r).
Definition product_line r := Csv.product_line (cols r).
Definition unit_price r := Csv.unit_price (cols r).
End Df.

Module BranchDim.
Record row := Build { branch_id : Z; branch : text; city : text }.
Definition natural_key (r : row) : text * text := (branch r, city r).
End BranchDim.

Module CustomerDim.
Record row := Build { customer_id : Z; customer_type : text; gender : text }.
Definition natural_key (r : row) : text * text := (customer_type r, gender r).
End CustomerDim.

Module ProductDim.
Record row := Build { product_id : Z; product_line : text; unit_price : real }.
Definition natural_key (r : row) : text * real := (product_line r, unit_price r).
End ProductDim.

Module SalesFact.
Record row := Build {
    invoice_id : text;
    branch_id : integer;
    customer_id : integer;
    product_id : integer;
    quantity : integer;
    cogs : real;
    tax_amount : real;
    sales : real;
    gross_income : real;
    gross_margin_percentage : real;
    invoice_datetime : option Timestamp;
    payment_mode : text;
    rating : real }.
End SalesFact.

(** ** pandas operations *)

(** [DataFrame.drop_duplicates()] with the default [keep='first']: a row
    is kept when no earlier row equals it. *)
Fixpoint drop_duplicates {A} `{EqDecision A} (l : list A) : list A :=
  match l with
  | [] => []
  | x :: l' => x :: filter (λ y, y ≠ x) (drop_duplicates l')
  end.

(** Python's [range(a, b)]. *)
Definition range (a b : Z) : list Z := seqZ a (b - a).

(** [left.merge(right, on=key, how='left')] where [right] contributes one
    further column [rval]: every left row, in left order, once per
    matching right row (in right order), or once with a missing value
    when no right row matches. *)
Definition merge_left {L R K V} `{EqDecision K}
    (lkey : L → K) (rkey : R → K) (rval : R → V)
    (left : list L) (right : list R) : list (L * option V) :=
  l ← left;
  match filter (λ r, rkey r = lkey l) right with
  | [] => [(l, None)]
  | ms => (λ r, (l, Some (rval r))) <$> ms
  end.

(** ** Dimension extraction ([main.py], steps 2 to 4) *)

Definition branch_key (r : Df.row) : text * text := (Df.branch r, Df.city r).
Definition customer_key (r : Df.row) : text * text :=
  (Df.customer_type r, Df.gender r).
Definition product_key (r : Df.row) : text * real :=
  (Df.product_line r, Df.unit_price r).

Definition branch_df (df : list Df.row) : list BranchDim.row :=
  let branch_df := drop_duplicates (branch_key <$> df) in
  zip_with (λ id k, BranchDim.Build id k.1 k.2)
           (range 1 (Z.of_nat (length branch_df) + 1)) branch_df.

Definition customer_df (df : list Df.row) : list CustomerDim.row :=
  let customer_df := drop_duplicates (customer_key <$> df) in
  zip_with (λ id k, CustomerDim.Build id k.1 k.2)
           (range 1 (Z.of_nat (length customer_df) + 1)) customer_df.

Definition product_df (df : list Df.row) : list ProductDim.row :=
  let product_df := drop_duplicates (product_key <$> df) in
  zip_with (λ id k, ProductDim.Build id k.1 k.2)
           (range 1 (Z.of_nat (length product_df) + 1)) product_df.

(** ** Fact build ([main.py], steps 8 and 9)

    Three successive left merges, each adding one key column, then the
    projection on the fact columns. *)
Definition fact_columns (r : Df.row) (branch_id customer_id product_id : integer)
    : SalesFact.row :=
  let d := Df.cols r in
  SalesFact.Build (Csv.invoice_id d) branch_id customer_id product_id
    (Csv.quantity d) (Csv.cogs d) (Csv.tax_amount d) (Csv.sales d)
    (Csv.gross_income d) (Csv.gross_margin_percentage d)
    (Df.invoice_datetime r) (Csv.payment_mode d) (Csv.rating d).

Definition sales_data_of (df : list Df.row)
    (branch_df : list BranchDim.row) (customer_df : list CustomerDim.row)
    (product_df : list ProductDim.row) : list SalesFact.row :=
  let df1 := merge_left branch_key BranchDim.natural_key
                        BranchDim.branch_id df branch_df in
  let df2 := merge_left (λ r, customer_key r.1) CustomerDim.natural_key
                        CustomerDim.customer_id df1 customer_df in
  let df3 := merge_left (λ r, product_key r.1.1) ProductDim.natural_key
                        ProductDim.product_id df2 product_df in
  (λ r : Df.row * integer * integer * integer,
     fact_columns r.1.1.1 r.1.1.2 r.1.2 r.2) <$> df3.

Definition sales_data (df : list Df.row) : list SalesFact.row :=
  sales_data_of df (branch_df df) (customer_df df) (product_df df).

(** ** The persisted store and the run monad

    The SQLite file holds at most the four tables of the schema; a table
    that was never written is [None]. A step of a script either returns
    a value or raises, and in both cases leaves a store behind. *)
Record Store := MkStore {
  branch_dim : option (list BranchDim.row);
  customer_dim : option (list CustomerDim.row);
  product_dim : option (list ProductDim.row);
  sales_fact : option (list SalesFact.row) }.

Inductive exn := ValueError | DatabaseError.

Inductive outcome (A : Type) :=
| Return (a : A)
| Raise (e : exn).
Arguments Return {A} a.
Arguments Raise {A} e.

Definition Run (A : Type) : Type := Store → outcome A * Store.

#[global] Instance Run_ret : MRet Run := λ A a conn, (Return a, conn).
#[global] Instance Run_bind : MBind Run := λ A B k m conn,
  match m conn with
  | (Return a, conn') => k a conn'
  | (Raise e, conn') => (Raise e, conn')
  end.

Definition raise {A} (e : exn) : Run A := λ conn, (Raise e, conn).

Definition or_raise {A} (e : exn) (o : option A) : Run A :=
  match o with Some a => mret a | None => raise e end.

(** [frame.to_sql(name, conn, if_exists='replace', index=False)]: the
    table of that name is dropped if present and written anew. *)
Definition to_sql_branch_dim (rows : list BranchDim.row) : Run unit :=
  λ conn, (Return (), MkStore (Some rows) (customer_dim conn)
                              (product_dim conn) (sales_fact conn)).
Definition to_sql_customer_dim (rows : list CustomerDim.row) : Run unit :=
  λ conn, (Return (), MkStore (branch_dim conn) (Some rows)
                              (product_dim conn) (sales_fact conn)).
Definition to_sql_product_dim (rows : list ProductDim.row) : Run unit :=
  λ conn, (Return (), MkStore (branch_dim conn) (customer_dim conn)
                              (Some rows) (sales_fact conn)).
Definition to_sql_sales_fact (rows : list SalesFact.row) : Run unit :=
  λ conn, (Return (), MkStore (branch_dim conn) (customer_dim conn)
                              (product_dim conn) (Some rows)).

(** ** [main.py] *)
Section main.

(** [strptime s] is the timestamp that the fixed format
    [%m/%d/%Y %I:%M:%S %p] reads from [s], or [None] when [s] does not
    match it. The parser belongs to pandas; the script only depends on
    whether it succeeds. *)
Variable strptime : string → option Timestamp.

(** One cell of [pd.to_datetime(df['date'] + ' ' + df['time'], format=...)]:
    the concatenation is missing when either operand is, and a missing
    string parses to NaT without error. The outer option is the failure
    of the parse. *)
Definition to_datetime_cell (date time : text) : option (option Timestamp) :=
  match date, time with
  | Some d, Some t => Some <$> strptime (d +:+ " " +:+ t)
  | _, _ => Some None
  end.

(** The column assignment: all rows parse, or the call raises. *)
Definition to_datetime (csv : list Csv.row) : option (list Df.row) :=
  mapM (λ r, Df.Build r <$> to_datetime_cell (Csv.date r) (Csv.time r)) csv.

(** The script from the transformation on. The download of the extract and
    the opening, commit and closing of the connection are left out: they
    touch no table. *)
Definition main (csv : list Csv.row) : Run unit :=
  df ← or_raise ValueError (to_datetime csv);
  let branch_df := branch_df df in
  let customer_df := customer_df df in
  let product_df := product_df df in
  to_sql_branch_dim branch_df;;
  to_sql_customer_dim customer_df;;
  to_sql_product_dim product_df;;
  let sales_data := sales_data_of df branch_df customer_df product_df in
  to_sql_sales_fact sales_data.

End main.

(** ** The header ([main.py], step 1)

    [df.columns.str.lower().str.replace(' ', '_')] followed by
    [df.rename(columns={'tax_5%': 'tax_amount', 'payment': 'payment_mode'})].
    A column name is a string of bytes; [str.lower] is modelled on ASCII
    names, where it changes the letters A to Z only. *)
Definition is_upper (c : ascii) : Prop := (65 ≤ N_of_ascii c ≤ 90)%N.

#[global] Instance is_upper_dec c : Decision (is_upper c).
Proof. unfold is_upper. apply _. Defined.

Definition ascii_lower (c : ascii) : ascii :=
  if decide (is_upper c) then ascii_of_N (N_of_ascii c + 32) else c.

Fixpoint str_map (f : ascii → ascii) (s : string) : string :=
  match s with
  | EmptyString => EmptyString
  | String c s' => String (f c) (str_map f s')
  end.

Definition str_lower : string → string := str_map ascii_lower.

(** [str.replace(old, new)] for one-character [old] and [new]. *)
Definition str_replace (old new : ascii) : string → string :=
  str_map (λ c, if decide (c = old) then new else c).

(** [rename(columns=mapper)]: a name that is a key of the mapper becomes
    its value, any other name stays. *)
Definition rename (columns : gmap string string) (name : string) : string :=
  default name (columns !! name).

Definition columns_mapper : gmap string string :=
  {[ "tax_5%" := "tax_amount"; "payment" := "payment_mode" ]}.

Definition renamed_columns (columns : list string) : list string :=
  rename columns_mapper
    <$> (str_replace " " "_" <$> (str_lower <$> columns)).

(** ** SQLite values

    [NULL] sorts before every other value; TEXT compares bytewise (the
    default [BINARY] collation) and REAL by value. *)
Definition nulls_first {A} (R : relation A) : relation (option A) :=
  λ x y, match x, y with
         | None, _ => True
         | Some _, None => False
         | Some a, Some b => R a b
         end.

Definition text_le : relation text := nulls_first String.le.
Definition real_le : relation real := nulls_first Qcle.

#[global] Instance nulls_first_dec {A} (R : relation A) `{!RelDecision R} :
  RelDecision (nulls_first R).
Proof. intros [a|] [b|]; simpl; apply _. Defined.

#[global] Instance text_le_dec : RelDecision text_le.
Proof. unfold text_le. apply _. Defined.
#[global] Instance real_le_dec : RelDecision real_le.
Proof. unfold real_le. apply _. Defined.

Definition text_lt (x y : text) : Prop := text_le x y ∧ x ≠ y.
Definition real_lt (x y : real) : Prop := real_le x y ∧ x ≠ y.

#[global] Instance text_lt_dec : RelDecision text_lt.
Proof. intros x y. unfold text_lt. apply _. Defined.
#[global] Instance real_lt_dec : RelDecision real_lt.
Proof. intros x y. unfold real_lt. apply _. Defined.

(** Whole numbers as [REAL] values: a number, the sum of those numbers of
    a list that are present, and the lists whose numbers are of moderate
    size, their magnitudes adding up to less than [2^31]. Doubles hold
    such numbers and their sums exactly. *)
Definition whole (z : integer) : real := (λ z, Q2Qc (inject_Z z)) <$> z.

Definition whole_sum (zs : list integer) : integer :=
  match omap id zs with
  | [] => None
  | vs => Some (foldr Z.add 0 vs)
  end.

Definition moderate (zs : list integer) : Prop :=
  foldr Z.add 0 (Z.abs <$> omap id zs) < 2 ^ 31.

(** ** [generate_report.py] *)

(** The three output columns; also the shape of a group before ranking. *)
Module Report.
Record row := Build { branch : text; product_line : text; total_sales : real }.
End Report.

(** A row of the common table expression. *)
Module Cte.
Record row := Build {
  branch : text; product_line : text; total_sales : real; rank : nat }.
Definition select (r : row) : Report.row :=
  Report.Build (branch r) (product_line r) (total_sales r).
End Cte.

Abbreviation joined := (SalesFact.row * BranchDim.row * ProductDim.row)%type.

Section report.

(** The aggregate [SUM] and the function [ROUND] belong to SQLite and
    compute on double-precision numbers. [SUM xs] stands for the result
    of the aggregate on a group whose rows hold the [REAL] values [xs],
    in the order in which the rows are visited; [ROUND x digits] for the
    result of the function on [x]. Nothing is assumed about either: the
    report is described in terms of the values they return. *)
Variable SUM : list real → real.
Variable ROUND : real → nat → real.

(** The two functions are exact on whole numbers when, on numbers of
    moderate size, [SUM] returns the sum of the values that are present,
    [NULL] when there is none, and [ROUND(., 2)] returns its argument, as
    SQLite's do. *)
Definition exact_on_whole_numbers : Prop :=
  (∀ zs : list integer,
     moderate zs → SUM (whole <$> zs) = whole (whole_sum zs)) ∧
  (∀ z : integer, moderate [z] → ROUND (whole z) 2 = whole z).

(** [FROM sales_fact s JOIN branch_dim b ON b.branch_id = s.branch_id
     JOIN product_dim p ON p.product_id = s.product_id]; an equality with
    a [NULL] side is not true. *)
Definition from_joins (sales_fact : list SalesFact.row)
    (branch_dim : list BranchDim.row) (product_dim : list ProductDim.row)
    : list joined :=
  s ← sales_fact;
  b ← filter (λ b, SalesFact.branch_id s = Some (BranchDim.branch_id b))
             branch_dim;
  p ← filter (λ p, SalesFact.product_id s = Some (ProductDim.product_id p))
             product_dim;
  [(s, b, p)].

Definition group_key (r : joined) : text * text :=
  (BranchDim.branch r.1.2, ProductDim.product_line r.2).

(** [GROUP BY b.branch, p.product_line] with the aggregate
    [ROUND(SUM(s.sales), 2)]: one row per distinct key among the joined
    rows, the rows of a group being visited in the order of the join. *)
Definition group_by (rows : list joined) : list Report.row :=
  (λ k, Report.Build k.1 k.2
          (ROUND (SUM ((λ r : joined, SalesFact.sales r.1.1) <$>
                         filter (λ r, group_key r = k) rows)) 2))
    <$> drop_duplicates (group_key <$> rows).

(** [DENSE_RANK()] along a partition already in window order: the rank
    moves up by one each time the ordering value changes. *)
Fixpoint dense_rank_from (prev : real) (rank : nat) (rows : list Report.row)
    : list Cte.row :=
  match rows with
  | [] => []
  | r :: rows' =>
      let rank' := if decide (Report.total_sales r = prev)
                   then rank else S rank in
      Cte.Build (Report.branch r) (Report.product_line r)
                (Report.total_sales r) rank'
        :: dense_rank_from (Report.total_sales r) rank' rows'
  end.

(** [ORDER BY ROUND(SUM(s.sales), 2) DESC] of the window. *)
Definition total_desc (x y : Report.row) : Prop :=
  real_le (Report.total_sales y) (Report.total_sales x).

#[global] Instance total_desc_dec : RelDecision total_desc.
Proof. intros x y. unfold total_desc. apply _. Defined.

Definition dense_rank (partition : list Report.row) : list Cte.row :=
  match merge_sort total_desc partition with
  | [] => []
  | r :: rows =>
      Cte.Build (Report.branch r) (Report.product_line r)
                (Report.total_sales r) 1%nat
        :: dense_rank_from (Report.total_sales r) 1%nat rows
  end.

(** [OVER (PARTITION BY b.branch ...)]. *)
Definition over_partition_by_branch (rows : list Report.row) : list Cte.row :=
  b ← drop_duplicates (Report.branch <$> rows);
  dense_rank (filter (λ r, Report.branch r = b) rows).

Definition CTE (sales_fact : list SalesFact.row)
    (branch_dim : list BranchDim.row) (product_dim : list ProductDim.row)
    : list Cte.row :=
  over_partition_by_branch
    (group_by (from_joins sales_fact branch_dim product_dim)).

(** [ORDER BY branch, rank DESC]. *)
Definition order_by (x y : Cte.row) : Prop :=
  text_lt (Cte.branch x) (Cte.branch y) ∨
  (Cte.branch x = Cte.branch y ∧ (Cte.rank y ≤ Cte.rank x)%nat).

#[global] Instance order_by_dec : RelDecision order_by.
Proof. intros x y. unfold order_by. apply _. Defined.

(** The whole statement. Rows that agree on [branch] and [rank] come out
    in the order the sort leaves them; SQL does not fix it. *)
Definition top3_query (sales_fact : list SalesFact.row)
    (branch_dim : list BranchDim.row) (product_dim : list ProductDim.row)
    : list Report.row :=
  Cte.select <$>
    merge_sort order_by
      (filter (λ r, (Cte.rank r ≤ 3)%nat)
              (CTE sales_fact branch_dim product_dim)).

(** [pd.read_sql(query, conn)]: fails when a table of the query does not
    exist. *)
Definition read_sql : Run (list Report.row) := λ conn,
  match sales_fact conn, branch_dim conn, product_dim conn with
  | Some s, Some b, Some p => (Return (top3_query s b p), conn)
  | _, _, _ => (Raise DatabaseError, conn)
  end.

(** The script: the returned frame is what [to_csv] writes out. *)
Definition generate_report : Run (list Report.row) :=
  export_df ← read_sql;
  mret export_df.

(** * Notions used to state the properties *)

(** ** The fact build *)

(** The three foreign keys of a fact row. *)
Definition foreign_keys (f : SalesFact.row) : integer * integer * integer :=
  (SalesFact.branch_id f, SalesFact.customer_id f, SalesFact.product_id f).

(** The surrogate keys that a row of the frame resolves to in a dimension
    table: those of the rows of the table that carry the row's natural
    key, in table order, or one missing key when no row of the table
    carries it. *)
Definition branch_ids_of (B : list BranchDim.row) (r : Df.row)
    : list integer :=
  match filter (λ d, BranchDim.branch d = Csv.branch (Df.cols r) ∧
                     BranchDim.city d = Csv.city (Df.cols r)) B with
  | [] => [None]
  | ds => (λ d, Some (BranchDim.branch_id d)) <$> ds
  end.

Definition customer_ids_of (C : list CustomerDim.row) (r : Df.row)
    : list integer :=
  match filter (λ d, CustomerDim.customer_type d
                     = Csv.customer_type (Df.cols r) ∧
                     CustomerDim.gender d = Csv.gender (Df.cols r)) C with
  | [] => [None]
  | ds => (λ d, Some (CustomerDim.customer_id d)) <$> ds
  end.

Definition product_ids_of (P : list ProductDim.row) (r : Df.row)
    : list integer :=
  match filter (λ d, ProductDim.product_line d
                     = Csv.product_line (Df.cols r) ∧
                     ProductDim.unit_price d = Csv.unit_price (Df.cols r))
               P with
  | [] => [None]
  | ds => (λ d, Some (ProductDim.product_id d)) <$> ds
  end.

(** The columns that a fact row takes over from the row of the frame. *)
Definition carries (r : Df.row) (f : SalesFact.row) : Prop :=
  SalesFact.invoice_id f = Csv.invoice_id (Df.cols r) ∧
  SalesFact.quantity f = Csv.quantity (Df.cols r) ∧
  SalesFact.cogs f = Csv.cogs (Df.cols r) ∧
  SalesFact.tax_amount f = Csv.tax_amount (Df.cols r) ∧
  SalesFact.sales f = Csv.sales (Df.cols r) ∧
  SalesFact.gross_income f = Csv.gross_income (Df.cols r) ∧
  SalesFact.gross_margin_percentage f
  = Csv.gross_margin_percentage (Df.cols r) ∧
  SalesFact.invoice_datetime f = Df.invoice_datetime r ∧
  SalesFact.payment_mode f = Csv.payment_mode (Df.cols r) ∧
  SalesFact.rating f = Csv.rating (Df.cols r).

(** ** The report *)

(** The joined rows as SQL defines the [FROM] clause: every combination
    of a fact row, a branch row and a product row for which both [ON]
    conditions hold, enumerated fact row by fact row. *)
Definition joined_rows (sales_fact : list SalesFact.row)
    (branch_dim : list BranchDim.row) (product_dim : list ProductDim.row)
    : list joined :=
  filter (λ j : joined,
            SalesFact.branch_id j.1.1 = Some (BranchDim.branch_id j.1.2) ∧
            SalesFact.product_id j.1.1 = Some (ProductDim.product_id j.2))
         (list_prod (list_prod sales_fact branch_dim) product_dim).

(** The branch and the product line of a joined row. *)
Definition branch_and_line (j : joined) : text * text :=
  (BranchDim.branch j.1.2, ProductDim.product_line j.2).

(** A group is a pair of a branch and a product line that some joined row
    carries. *)
Definition in_group (rows : list joined) (b p : text) : Prop :=
  (b, p) ∈ branch_and_line <$> rows.

(** The total of a group: what [SUM] returns on the sales of the joined
    rows of the group, and that value after [ROUND(., 2)]. *)
Definition group_sum (rows : list joined) (b p : text) : real :=
  SUM ((λ j : joined, SalesFact.sales j.1.1) <$>
         filter (λ j, branch_and_line j = (b, p)) rows).

Definition group_total (rows : list joined) (b p : text) : real :=
  ROUND (group_sum rows b p) 2.

(** The product lines sold at a branch, and the totals they reach. *)
Definition location_categories (rows : list joined) (b : text) : gset text :=
  list_to_set (snd <$> filter (λ k, k.1 = b) (branch_and_line <$> rows)).

Definition location_totals (rows : list joined) (b : text) : gset real :=
  set_map (group_total rows b) (location_categories rows b).

(** Dense rank of a value among a set of values, largest first: one more
    than the number of distinct values above it. *)
Definition rank_among (vals : gset real) (t : real) : nat :=
  S (size (filter (real_lt t) vals)).

Definition dense_rank_of (rows : list joined) (b : text) (t : real) : nat :=
  rank_among (location_totals rows b) t.

(** The grouping columns of a group and of a ranked group. *)
Definition report_key (r : Report.row) : text * text :=
  (Report.branch r, Report.product_line r).
Definition cte_key (c : Cte.row) : text * text :=
  (Cte.branch c, Cte.product_line c).

(** The order of the report: branch ascending, then rank descending. *)
Definition report_order (rows : list joined) (x y : Report.row) : Prop :=
  text_lt (Report.branch x) (Report.branch y) ∨
  (Report.branch x = Report.branch y ∧
   (dense_rank_of rows (Report.branch y) (Report.total_sales y)
    ≤ dense_rank_of rows (Report.branch x) (Report.total_sales x))%nat).

(** The order of the report on its visible columns: branch ascending,
    then total ascending. *)
Definition visible_order (x y : Report.row) : Prop :=
  text_lt (Report.branch x) (Report.branch y) ∨
  (Report.branch x = Report.branch y ∧
   real_le (Report.total_sales x) (Report.total_sales y)).

(** Two numbers differ only beyond the given decimal place when their
    decimal expansions cut after that place coincide; they are then less
    than one unit of that place apart. *)
Definition truncated (digits : nat) (q : Qc) : Z :=
  Z.quot (Qnum (this q) * 10 ^ Z.of_nat digits) (Zpos (Qden (this q))).

Definition differ_only_beyond (digits : nat) (x y : real) : Prop :=
  match x, y with
  | Some a, Some b =>
      truncated digits a = truncated digits b ∧
      (Qabs (this a - this b) < 1 / inject_Z (10 ^ Z.of_nat digits))%Q
  | _, _ => False
  end.

(** ** The report stated on the extract

    A group is a branch and a product line of some row of the extract;
    its total is [ROUND(., 2)] of the [SUM] of the sales of its rows, in
    the order of the extract; its dense rank is taken among the totals of
    its branch. *)
Definition csv_key (r : Csv.row) : text * text :=
  (Csv.branch r, Csv.product_line r).

Definition csv_in_group (csv : list Csv.row) (b p : text) : Prop :=
  (b, p) ∈ csv_key <$> csv.

Definition csv_sum (csv : list Csv.row) (b p : text) : real :=
  SUM (Csv.sales <$> filter (λ r, csv_key r = (b, p)) csv).

Definition csv_total (csv : list Csv.row) (b p : text) : real :=
  ROUND (csv_sum csv b p) 2.

Definition csv_categories (csv : list Csv.row) (b : text) : gset text :=
  list_to_set (snd <$> filter (λ k, k.1 = b) (csv_key <$> csv)).

Definition csv_totals (csv : list Csv.row) (b : text) : gset real :=
  set_map (csv_total csv b) (csv_categories csv b).

Definition csv_dense_rank (csv : list Csv.row) (b : text) (t : real) : nat :=
  rank_among (csv_totals csv b) t.

Definition csv_report_order (csv : list Csv.row) (x y : Report.row) : Prop :=
  text_lt (Report.branch x) (Report.branch y) ∨
  (Report.branch x = Report.branch y ∧
   (csv_dense_rank csv (Report.branch y) (Report.total_sales y)
    ≤ csv_dense_rank csv (Report.branch x) (Report.total_sales x))%nat).

(** ** Column names *)
Fixpoint characters (s : string) : list ascii :=
  match s with
  | EmptyString => []
  | String c s' => c :: characters s'
  end.

Definition ascii_name (s : string) : Prop :=
  Forall (λ c, (N_of_ascii c < 128)%N) (characters s).

Definition canonical_name (s : string) : Prop :=
  Forall (λ c, c ≠ " "%char ∧ ¬ is_upper c) (characters s).

(** ** Notions of the proofs *)

(** What a left row with key [k] receives from the right table of a left
    merge: the value of every right row with that key, or one missing
    value when there is none. *)
Definition found {R K V} `{EqDecision K} (rkey : R → K) (rval : R → V)
    (right : list R) (k : K) : list (option V) :=
  match filter (λ r, rkey r = k) right with
  | [] => [None]
  | ms => (λ r, Some (rval r)) <$> ms
  end.

(** The fact rows that one row of the frame gives rise to. *)
Definition facts_of_row (branch_df : list BranchDim.row)
    (customer_df : list CustomerDim.row) (product_df : list ProductDim.row)
    (r : Df.row) : list SalesFact.row :=
  b ← found BranchDim.natural_key BranchDim.branch_id branch_df (branch_key r);
  c ← found CustomerDim.natural_key CustomerDim.customer_id customer_df
            (customer_key r);
  p ← found ProductDim.natural_key ProductDim.product_id product_df
            (product_key r);
  [fact_columns r b c p].

(** What the load writes for one row of the frame: the row's own columns
    and the surrogate keys of the dimension rows that carry its natural
    keys. *)
Definition resolved (df : list Df.row) (r : Df.row) (f : SalesFact.row) : Prop :=
  ∃ b c p,
    b ∈ branch_df df ∧ BranchDim.natural_key b = branch_key r ∧
    c ∈ customer_df df ∧ CustomerDim.natural_key c = customer_key r ∧
    p ∈ product_df df ∧ ProductDim.natural_key p = product_key r ∧
    f = fact_columns r (Some (BranchDim.branch_id b))
          (Some (CustomerDim.customer_id c)) (Some (ProductDim.product_id p)).

(** A joined row of the loaded tables that gives back a row of the frame:
    its fact row is the row's, and its two dimension rows carry the row's
    natural keys. *)
Definition rejoined (df : list Df.row) (r : Df.row) (j : joined) : Prop :=
  ∃ b c p,
    j = (fact_columns r (Some (BranchDim.branch_id b))
           (Some (CustomerDim.customer_id c))
           (Some (ProductDim.product_id p)), b, p) ∧
    BranchDim.natural_key b = branch_key r ∧
    ProductDim.natural_key p = product_key r.

(** A group together with its dense rank among [vals]. *)
Definition ranked (vals : gset real) (r : Report.row) : Cte.row :=
  Cte.Build (Report.branch r) (Report.product_line r) (Report.total_sales r)
            (rank_among vals (Report.total_sales r)).

(** What the two string methods of the header do to one character. *)
Definition normalise_char (c : ascii) : ascii :=
  (λ c, if decide (c = " "%char) then "_"%char else c) (ascii_lower c).

(** ** Sample data *)

Definition dec (n : Z) (d : positive) : real := Some (Q2Qc (n # d)).

(** An arithmetic for the examples: the sum of the values that are
    present, and the rounding to the nearest multiple of [10^-digits]
    with a tie going away from zero, both computed on the rationals. On
    the values of the examples the database returns these results. *)
Definition ex_SUM (xs : list real) : real :=
  match omap id xs with
  | [] => None
  | vs => Some (foldl Qcplus (Q2Qc 0) vs)
  end.

Definition round_half_away (q : Qc) (digits : nat) : Qc :=
  let scale := inject_Z (10 ^ Z.of_nat digits) in
  let n := Qfloor (Qabs (this q) * scale + (1 # 2))%Q in
  Q2Qc (inject_Z (Z.sgn (Qnum (this q)) * n) / scale)%Q.

Definition ex_ROUND (x : real) (digits : nat) : real :=
  (λ q, round_half_away q digits) <$> x.

Definition ex_row (invoice branch city customer gender line : string)
    (price total : real) (date time : string) : Csv.row :=
  Csv.Build (Some invoice) (Some branch) (Some city) (Some customer)
    (Some gender) (Some line) price (Some 1) None total (Some date)
    (Some time) (Some "Cash") None None None None.

Definition ex_row1 : Csv.row :=
  ex_row "750-67-8428" "A" "Yangon" "Member" "Female" "Health and beauty"
    (dec 7469 100) (dec 1004 1000) "1/5/2019" "1:08:00 PM".
Definition ex_row2 : Csv.row :=
  ex_row "226-31-3081" "A" "Yangon" "Normal" "Female" "Electronic accessories"
    (dec 1528 100) (dec 1006 1000) "3/8/2019" "10:29:00 AM".
Definition ex_row3 : Csv.row :=
  ex_row "631-41-3108" "B" "Mandalay" "Normal" "Female" "Health and beauty"
    (dec 7469 100) (dec 2 1) "1/5/2019" "1:08:00 PM".
Definition ex_row4 : Csv.row :=
  ex_row "123-19-1176" "A" "Yangon" "Member" "Female" "Health and beauty"
    (dec 7469 100) (dec 3 1) "3/8/2019" "10:29:00 AM".

Definition ex_csv : list Csv.row := [ex_row1; ex_row2; ex_row3; ex_row4].

Definition ex_bad_row : Csv.row :=
  ex_row "373-73-7910" "A" "Yangon" "Normal" "Male" "Sports and travel"
    (dec 8631 100) (dec 5 1) "2019-02-08" "10:37".

(** A parser that knows the two timestamps of the sample. *)
Definition ex_strptime (s : string) : option Timestamp :=
  if decide (s = "1/5/2019 1:08:00 PM")
  then Some (MkTimestamp 2019 1 5 13 8 0)
  else if decide (s = "3/8/2019 10:29:00 AM")
  then Some (MkTimestamp 2019 3 8 10 29 0)
  else None.

Definition ex_df : list Df.row :=
  [ Df.Build ex_row1 (Some (MkTimestamp 2019 1 5 13 8 0));
    Df.Build ex_row2 (Some (MkTimestamp 2019 3 8 10 29 0));
    Df.Build ex_row3 (Some (MkTimestamp 2019 1 5 13 8 0));
    Df.Build ex_row4 (Some (MkTimestamp 2019 3 8 10 29 0)) ].

Definition ex_empty_store : Store := MkStore None None None None.

Definition ex_loaded_store : Store :=
  MkStore (Some (branch_df ex_df)) (Some (customer_df ex_df))
          (Some (product_df ex_df)) (Some (sales_data ex_df)).

(** The tables of the ranking example of the design, with one more
    product line: branch A sells X for 300 (in two sales), Y for 300, Z
    for 100, W for 50 and V for 10; branch B sells X for 200. *)
Definition ex_branch_dim : list BranchDim.row :=
  [ BranchDim.Build 1 (Some "A") (Some "Yangon");
    BranchDim.Build 2 (Some "B") (Some "Mandalay") ].

Definition ex_product_dim : list ProductDim.row :=
  [ ProductDim.Build 1 (Some "X") (dec 10 1);
    ProductDim.Build 2 (Some "Y") (dec 10 1);
    ProductDim.Build 3 (Some "Z") (dec 10 1);
    ProductDim.Build 4 (Some "W") (dec 10 1);
    ProductDim.Build 5 (Some "V") (dec 10 1) ].

Definition ex_fact (branch_id product_id : integer) (total : real)
    : SalesFact.row :=
  SalesFact.Build (Some "101-17-6199") branch_id (Some 1) product_id (Some 1)
    None None total None None None (Some "Cash") None.

Definition ex_sales_fact : list SalesFact.row :=
  [ ex_fact (Some 1) (Some 1) (dec 100 1);
    ex_fact (Some 1) (Some 2) (dec 300 1);
    ex_fact (Some 1) (Some 1) (dec 200 1);
    ex_fact (Some 1) (Some 3) (dec 100 1);
    ex_fact (Some 1) (Some 4) (dec 50 1);
    ex_fact (Some 1) (Some 5) (dec 10 1);
    ex_fact (Some 2) (Some 1) (dec 200 1) ].

(** The first two sample rows alone: one branch, two product lines whose
    sales are 1.004 and 1.006. *)
Definition cx_csv : list Csv.row := [ex_row1; ex_row2].
Definition cx_df : list Df.row := take 2 ex_df.

(** The fact row of the third sample row. *)
Definition ex_fact_row3 : SalesFact.row :=
  SalesFact.Build (Some "631-41-3108") (Some 2) (Some 2) (Some 1) (Some 1)
    None None (dec 2 1) None None (Some (MkTimestamp 2019 1 5 13 8 0))
    (Some "Cash") None.

#[global] Instance Report_row_eq_dec : EqDecision Report.row.
Proof. solve_decision. Defined.
#[global] Instance Cte_row_eq_dec : EqDecision Cte.row.
Proof. solve_decision. Defined.

(** The header of the extract. *)
Definition ex_header : list string :=
  [ "Invoice ID"; "Branch"; "City"; "Customer type"; "Gender";
    "Product line"; "Unit price"; "Quantity"; "Tax 5%"; "Sales"; "Date";
    "Time"; "Payment"; "cogs"; "gross margin percentage"; "gross income";
    "Rating" ].

#[global] Instance BranchDim_row_eq_dec : EqDecision BranchDim.row.
Proof. solve_decision. Defined.

(** * Properties *)

(** ** [drop_duplicates] *)
Section drop_duplicates.
Context {A : Type} `{EqDecision A}.
Implicit Types (x : A) (l : list A).

Lemma filter_all (P : A → Prop) `{∀ x, Decision (P x)} l :
  (∀ x, x ∈ l → P x) → filter P l = l.
Proof.
  induction l as [|y l IH]; intros HP; [done|].
  rewrite filter_cons_True by (apply HP; left).
  f_equal. apply IH. intros x Hx. apply HP. by right.
Qed.

Lemma elem_of_drop_duplicates l x : x ∈ drop_duplicates l ↔ x ∈ l.
Proof.
  induction l as [|y l IH]; simpl; [done|].
  rewrite !elem_of_cons, list_elem_of_filter, IH.
  destruct (decide (x = y)); tauto.
Qed.

Lemma NoDup_drop_duplicates l : NoDup (drop_duplicates l).
Proof.
  induction l as [|y l IH]; simpl; constructor.
  - rewrite list_elem_of_filter. tauto.
  - by apply NoDup_filter.
Qed.

(** First occurrences keep their order: what a prefix contributes is not
    disturbed by what follows it. *)
Lemma drop_duplicates_app l1 l2 :
  drop_duplicates (l1 ++ l2) =
  drop_duplicates l1 ++ filter (λ x, x ∉ l1) (drop_duplicates l2).
Proof.
  induction l1 as [|y l1 IH]; simpl.
  - symmetry. apply filter_all. intros x _. apply not_elem_of_nil.
  - f_equal. rewrite IH, filter_app. f_equal.
    rewrite list_filter_filter. apply list_filter_iff.
    intros x. rewrite not_elem_of_cons. tauto.
Qed.

Lemma drop_duplicates_first_occurrence l1 x l2 :
  x ∉ l1 →
  drop_duplicates (l1 ++ x :: l2) !! length (drop_duplicates l1) = Some x.
Proof.
  intros Hx. rewrite drop_duplicates_app. simpl.
  rewrite filter_cons, decide_True by done.
  by rewrite list_lookup_middle.
Qed.

End drop_duplicates.

Lemma length_drop_duplicates `{Countable A} (l : list A) :
  length (drop_duplicates l) = size (list_to_set (C:=gset A) l).
Proof.
  rewrite <-(size_list_to_set (C:=gset A) (drop_duplicates l))
    by apply NoDup_drop_duplicates.
  f_equal. apply set_eq. intros x.
  by rewrite !elem_of_list_to_set, elem_of_drop_duplicates.
Qed.

(** ** Numbering the distinct keys *)
Section surrogate_keys.
Context {K R : Type} (build : Z → K → R) (id : R → Z) (key : R → K).
Hypothesis id_build : ∀ i k, id (build i k) = i.
Hypothesis key_build : ∀ i k, key (build i k) = k.

Let numbered (keys : list K) : list R :=
  zip_with build (range 1 (Z.of_nat (length keys) + 1)) keys.

Lemma range_from_1 (n : nat) : range 1 (Z.of_nat n + 1) = seqZ 1 (Z.of_nat n).
Proof. unfold range. f_equal. lia. Qed.

Lemma numbered_ids keys : id <$> numbered keys = seqZ 1 (Z.of_nat (length keys)).
Proof.
  unfold numbered. rewrite range_from_1.
  apply fmap_zip_with_l; [done|]. rewrite length_seqZ. lia.
Qed.

Lemma numbered_keys keys : key <$> numbered keys = keys.
Proof.
  unfold numbered. rewrite range_from_1.
  apply fmap_zip_with_r; [done|]. rewrite length_seqZ. lia.
Qed.

Lemma numbered_lookup keys i k :
  keys !! i = Some k → numbered keys !! i = Some (build (Z.of_nat i + 1) k).
Proof.
  intros Hk. unfold numbered. rewrite range_from_1, lookup_zip_with, Hk.
  rewrite lookup_seqZ_lt by (apply lookup_lt_Some in Hk; lia).
  simpl. do 2 f_equal. lia.
Qed.

Lemma numbered_id_inj keys r1 r2 :
  r1 ∈ numbered keys → r2 ∈ numbered keys → id r1 = id r2 → r1 = r2.
Proof.
  intros [i Hi]%list_elem_of_lookup [j Hj]%list_elem_of_lookup Hid.
  assert (id <$> numbered keys !! i = Some (id r1)) as Hi' by by rewrite Hi.
  assert (id <$> numbered keys !! j = Some (id r2)) as Hj' by by rewrite Hj.
  rewrite <-list_lookup_fmap, numbered_ids in Hi', Hj'.
  apply lookup_seqZ in Hi' as [Hi' _], Hj' as [Hj' _].
  assert (i = j) as -> by lia. congruence.
Qed.

End surrogate_keys.

(** ** The dimension tables *)

Lemma branch_df_keys df :
  BranchDim.natural_key <$> branch_df df = drop_duplicates (branch_key <$> df).
Proof. by apply (numbered_keys (λ i k, BranchDim.Build i k.1 k.2)); intros ? []. Qed.

Lemma customer_df_keys df :
  CustomerDim.natural_key <$> customer_df df
  = drop_duplicates (customer_key <$> df).
Proof. by apply (numbered_keys (λ i k, CustomerDim.Build i k.1 k.2)); intros ? []. Qed.

Lemma product_df_keys df :
  ProductDim.natural_key <$> product_df df
  = drop_duplicates (product_key <$> df).
Proof. by apply (numbered_keys (λ i k, ProductDim.Build i k.1 k.2)); intros ? []. Qed.

Lemma branch_df_ids df :
  BranchDim.branch_id <$> branch_df df
  = seqZ 1 (Z.of_nat (length (drop_duplicates (branch_key <$> df)))).
Proof. by apply (numbered_ids (λ i k, BranchDim.Build i k.1 k.2)). Qed.

Lemma customer_df_ids df :
  CustomerDim.customer_id <$> customer_df df
  = seqZ 1 (Z.of_nat (length (drop_duplicates (customer_key <$> df)))).
Proof. by apply (numbered_ids (λ i k, CustomerDim.Build i k.1 k.2)). Qed.

Lemma product_df_ids df :
  ProductDim.product_id <$> product_df df
  = seqZ 1 (Z.of_nat (length (drop_duplicates (product_key <$> df)))).
Proof. by apply (numbered_ids (λ i k, ProductDim.Build i k.1 k.2)). Qed.

(** C2. In each dimension table no two rows carry the same natural key;
    the surrogate keys are 1, ..., k in row order, k being the number of
    distinct natural-key combinations among the rows of the input; and
    the natural keys of the table are exactly those of the rows of the
    input. *)
Theorem dimension_uniqueness (df : list Df.row) :
  (NoDup ((λ d, (BranchDim.branch d, BranchDim.city d)) <$> branch_df df) ∧
   BranchDim.branch_id <$> branch_df df
   = seqZ 1 (Z.of_nat (size (list_to_set (C:=gset (text * text))
       ((λ r, (Csv.branch (Df.cols r), Csv.city (Df.cols r))) <$> df)))) ∧
   ∀ k, k ∈ (λ d, (BranchDim.branch d, BranchDim.city d)) <$> branch_df df
        ↔ k ∈ (λ r, (Csv.branch (Df.cols r), Csv.city (Df.cols r))) <$> df) ∧
  (NoDup ((λ d, (CustomerDim.customer_type d, CustomerDim.gender d))
            <$> customer_df df) ∧
   CustomerDim.customer_id <$> customer_df df
   = seqZ 1 (Z.of_nat (size (list_to_set (C:=gset (text * text))
       ((λ r, (Csv.customer_type (Df.cols r), Csv.gender (Df.cols r)))
          <$> df)))) ∧
   ∀ k, k ∈ (λ d, (CustomerDim.customer_type d, CustomerDim.gender d))
              <$> customer_df df
        ↔ k ∈ (λ r, (Csv.customer_type (Df.cols r), Csv.gender (Df.cols r)))
                <$> df) ∧
  (NoDup ((λ d, (ProductDim.product_line d, ProductDim.unit_price d))
            <$> product_df df) ∧
   ProductDim.product_id <$> product_df df
   = seqZ 1 (Z.of_nat (size (list_to_set (C:=gset (text * real))
       ((λ r, (Csv.product_line (Df.cols r), Csv.unit_price (Df.cols r)))
          <$> df)))) ∧
   ∀ k, k ∈ (λ d, (ProductDim.product_line d, ProductDim.unit_price d))
              <$> product_df df
        ↔ k ∈ (λ r, (Csv.product_line (Df.cols r),
                     Csv.unit_price (Df.cols r))) <$> df).
Proof.
  change (λ d, (BranchDim.branch d, BranchDim.city d))
    with BranchDim.natural_key.
  change (λ d, (CustomerDim.customer_type d, CustomerDim.gender d))
    with CustomerDim.natural_key.
  change (λ d, (ProductDim.product_line d, ProductDim.unit_price d))
    with ProductDim.natural_key.
  change (λ r, (Csv.branch (Df.cols r), Csv.city (Df.cols r)))
    with branch_key.
  change (λ r, (Csv.customer_type (Df.cols r), Csv.gender (Df.cols r)))
    with customer_key.
  change (λ r, (Csv.product_line (Df.cols r), Csv.unit_price (Df.cols r)))
    with product_key.
  rewrite branch_df_keys, customer_df_keys, product_df_keys.
  rewrite branch_df_ids, customer_df_ids, product_df_ids.
  rewrite !length_drop_duplicates.
  repeat split;
    first [ apply NoDup_drop_duplicates
          | by apply elem_of_drop_duplicates ].
Qed.

(** ** Left merges *)

Lemma filter_none {A} (P : A → Prop) `{∀ x, Decision (P x)} (l : list A) :
  (∀ x, x ∈ l → ¬ P x) → filter P l = [].
Proof.
  induction l as [|y l IH]; intros HP; [done|].
  rewrite filter_cons_False by (apply HP; left).
  apply IH. intros x Hx. apply HP. by right.
Qed.

Section list_monad_laws.
Context {A B C : Type}.

Lemma list_bind_assoc (f : A → list B) (g : B → list C) (l : list A) :
  (l ≫= f) ≫= g = l ≫= (λ x, f x ≫= g).
Proof.
  induction l as [|x l IH]; [done|].
  by rewrite !bind_cons, bind_app, IH.
Qed.

Lemma list_fmap_bind_r (f : A → list B) (g : B → C) (l : list A) :
  g <$> (l ≫= f) = l ≫= (λ x, g <$> f x).
Proof.
  induction l as [|x l IH]; [done|].
  by rewrite !bind_cons, fmap_app, IH.
Qed.

Lemma list_bind_fmap_l (f : A → B) (g : B → list C) (l : list A) :
  (f <$> l) ≫= g = l ≫= (λ x, g (f x)).
Proof. induction l as [|x l IH]; [done|]. csimpl. by rewrite IH. Qed.

Lemma list_bind_ret_fmap (f : A → B) (l : list A) :
  l ≫= (λ x, [f x]) = f <$> l.
Proof. induction l as [|x l IH]; [done|]. csimpl. by rewrite IH. Qed.

End list_monad_laws.

Section merge_left.
Context {L R K V : Type} `{EqDecision K}.
Context (lkey : L → K) (rkey : R → K) (rval : R → V).

Lemma merge_left_found (left : list L) (right : list R) :
  merge_left lkey rkey rval left right
  = l ← left; (λ v, (l, v)) <$> found rkey rval right (lkey l).
Proof.
  unfold merge_left, found. apply list_bind_ext; [|done]. intros l.
  destruct (filter _ right) as [|r ms]; [done|].
  by rewrite <-list_fmap_compose.
Qed.

Lemma filter_key_NoDup (right : list R) (k : K) :
  NoDup (rkey <$> right) →
  filter (λ r, rkey r = k) right = option_list (head (filter (λ r, rkey r = k) right)).
Proof.
  induction right as [|r right IH]; [done|].
  rewrite fmap_cons, NoDup_cons. intros [Hr Hnd].
  rewrite filter_cons. destruct (decide (rkey r = k)) as [<-|]; [|by apply IH].
  simpl. f_equal. apply filter_none. intros r' Hr' Heq.
  apply Hr. rewrite <-Heq. by apply list_elem_of_fmap_2.
Qed.

Lemma found_NoDup (right : list R) (k : K) :
  NoDup (rkey <$> right) →
  found rkey rval right k = [rval <$> head (filter (λ r, rkey r = k) right)].
Proof.
  intros Hnd. unfold found. rewrite (filter_key_NoDup _ _ Hnd).
  by destruct (head _).
Qed.

Lemma found_None (right : list R) (k : K) :
  k ∉ rkey <$> right → found rkey rval right k = [None].
Proof.
  intros Hk. unfold found.
  assert (filter (λ r, rkey r = k) right = []) as ->; [|done].
  apply filter_none. intros r Hr <-.
  apply Hk. by apply list_elem_of_fmap_2.
Qed.

End merge_left.

(** ** The fact table *)

(** The three merges work row by row. *)
Lemma sales_data_of_rows df B C P :
  sales_data_of df B C P = df ≫= facts_of_row B C P.
Proof.
  unfold sales_data_of, facts_of_row. rewrite !merge_left_found.
  rewrite list_fmap_bind_r, !list_bind_assoc.
  apply list_bind_ext; [|done]. intros r.
  rewrite list_bind_fmap_l.
  apply list_bind_ext; [|done]. intros b. simpl.
  rewrite list_bind_fmap_l.
  apply list_bind_ext; [|done]. intros c. simpl.
  by rewrite <-list_fmap_compose, list_bind_ret_fmap.
Qed.

Lemma found_unique {R K V} `{EqDecision K} (rkey : R → K) (rval : R → V)
    (right : list R) (k : K) :
  NoDup (rkey <$> right) → k ∈ rkey <$> right →
  ∃ r, r ∈ right ∧ rkey r = k ∧ found rkey rval right k = [Some (rval r)].
Proof.
  intros Hnd (r & -> & Hr)%list_elem_of_fmap.
  rewrite (found_NoDup _ _ _ _ Hnd).
  destruct (head (filter (λ r', rkey r' = rkey r) right)) as [r'|] eqn:Hh.
  - apply head_Some_elem_of, list_elem_of_filter in Hh as [? ?]. eauto.
  - apply head_None in Hh.
    assert (r ∈ filter (λ r', rkey r' = rkey r) right) as Hin
      by by apply list_elem_of_filter.
    rewrite Hh in Hin. by apply not_elem_of_nil in Hin.
Qed.

Lemma Forall2_bind_singleton {A B} (Q : A → B → Prop) (f : A → list B)
    (l : list A) :
  (∀ x, x ∈ l → ∃ y, f x = [y] ∧ Q x y) → Forall2 Q l (l ≫= f).
Proof.
  induction l as [|x l IH]; intros Hf; [constructor|].
  destruct (Hf x) as (y & Hy & HQ); [left|].
  rewrite bind_cons, Hy. constructor; [done|].
  apply IH. intros x' Hx'. apply Hf. by right.
Qed.

Lemma sales_data_resolved df : Forall2 (resolved df) df (sales_data df).
Proof.
  unfold sales_data. rewrite sales_data_of_rows.
  apply Forall2_bind_singleton. intros r Hr. unfold facts_of_row, resolved.
  destruct (found_unique BranchDim.natural_key BranchDim.branch_id
              (branch_df df) (branch_key r)) as (b & Hb & Hkb & ->).
  { rewrite branch_df_keys. apply NoDup_drop_duplicates. }
  { rewrite branch_df_keys, elem_of_drop_duplicates.
    by apply list_elem_of_fmap_2. }
  destruct (found_unique CustomerDim.natural_key CustomerDim.customer_id
              (customer_df df) (customer_key r)) as (c & Hc & Hkc & ->).
  { rewrite customer_df_keys. apply NoDup_drop_duplicates. }
  { rewrite customer_df_keys, elem_of_drop_duplicates.
    by apply list_elem_of_fmap_2. }
  destruct (found_unique ProductDim.natural_key ProductDim.product_id
              (product_df df) (product_key r)) as (p & Hp & Hkp & ->).
  { rewrite product_df_keys. apply NoDup_drop_duplicates. }
  { rewrite product_df_keys, elem_of_drop_duplicates.
    by apply list_elem_of_fmap_2. }
  eexists. split; [done|]. by exists b, c, p.
Qed.

Lemma length_sales_data df : length (sales_data df) = length df.
Proof. symmetry. eapply Forall2_length, sales_data_resolved. Qed.

(** C3. The fact table has exactly one row per row of the input, whatever
    natural-key combinations repeat in it. *)
Theorem fact_cardinality (df : list Df.row) :
  length (sales_data df) = length df.
Proof. apply length_sales_data. Qed.

Lemma branch_df_id_inj df b1 b2 :
  b1 ∈ branch_df df → b2 ∈ branch_df df →
  BranchDim.branch_id b1 = BranchDim.branch_id b2 → b1 = b2.
Proof. by apply (numbered_id_inj (λ i k, BranchDim.Build i k.1 k.2)). Qed.

Lemma customer_df_id_inj df c1 c2 :
  c1 ∈ customer_df df → c2 ∈ customer_df df →
  CustomerDim.customer_id c1 = CustomerDim.customer_id c2 → c1 = c2.
Proof. by apply (numbered_id_inj (λ i k, CustomerDim.Build i k.1 k.2)). Qed.

Lemma product_df_id_inj df p1 p2 :
  p1 ∈ product_df df → p2 ∈ product_df df →
  ProductDim.product_id p1 = ProductDim.product_id p2 → p1 = p2.
Proof. by apply (numbered_id_inj (λ i k, ProductDim.Build i k.1 k.2)). Qed.

(** C4. The i-th fact row comes from the i-th input row, and whenever one
    of its foreign keys is not null, a row of that dimension table has
    that surrogate key, and every row of the table that has it carries
    the natural-key columns of that input row. *)
Theorem join_correctness (df : list Df.row) (i : nat) (f : SalesFact.row) :
  sales_data df !! i = Some f →
  ∃ r, df !! i = Some r ∧
    (∀ k, SalesFact.branch_id f = Some k →
       (∃ d, d ∈ branch_df df ∧ BranchDim.branch_id d = k) ∧
       ∀ d, d ∈ branch_df df → BranchDim.branch_id d = k →
            BranchDim.branch d = Csv.branch (Df.cols r) ∧
            BranchDim.city d = Csv.city (Df.cols r)) ∧
    (∀ k, SalesFact.customer_id f = Some k →
       (∃ d, d ∈ customer_df df ∧ CustomerDim.customer_id d = k) ∧
       ∀ d, d ∈ customer_df df → CustomerDim.customer_id d = k →
            CustomerDim.customer_type d = Csv.customer_type (Df.cols r) ∧
            CustomerDim.gender d = Csv.gender (Df.cols r)) ∧
    (∀ k, SalesFact.product_id f = Some k →
       (∃ d, d ∈ product_df df ∧ ProductDim.product_id d = k) ∧
       ∀ d, d ∈ product_df df → ProductDim.product_id d = k →
            ProductDim.product_line d = Csv.product_line (Df.cols r) ∧
            ProductDim.unit_price d = Csv.unit_price (Df.cols r)).
Proof.
  intros Hf.
  destruct (Forall2_lookup_r _ _ _ _ _ (sales_data_resolved df) Hf)
    as (r & Hr & b & c & p & Hb & Hkb & Hc & Hkc & Hp & Hkp & ->).
  injection Hkb as Hb1 Hb2. injection Hkc as Hc1 Hc2.
  injection Hkp as Hp1 Hp2.
  exists r. split; [done|]. simpl. split; [|split].
  - intros k [= <-]. split; [by exists b|].
    intros d Hd Hid. by rewrite (branch_df_id_inj df d b).
  - intros k [= <-]. split; [by exists c|].
    intros d Hd Hid. by rewrite (customer_df_id_inj df d c).
  - intros k [= <-]. split; [by exists p|].
    intros d Hd Hid. by rewrite (product_df_id_inj df d p).
Qed.

(** ** Join misses *)

Lemma found_nonempty {R K V} `{EqDecision K} (rkey : R → K) (rval : R → V)
    (right : list R) (k : K) : found rkey rval right k ≠ [].
Proof. unfold found. by destruct (filter _ right). Qed.

Lemma facts_of_row_nonempty B C P r : facts_of_row B C P r ≠ [].
Proof.
  unfold facts_of_row.
  pose proof (found_nonempty BranchDim.natural_key BranchDim.branch_id
                B (branch_key r)) as Hb.
  pose proof (found_nonempty CustomerDim.natural_key CustomerDim.customer_id
                C (customer_key r)) as Hc.
  pose proof (found_nonempty ProductDim.natural_key ProductDim.product_id
                P (product_key r)) as Hp.
  destruct (found _ _ B _) as [|b bs]; [done|].
  destruct (found _ _ C _) as [|c cs]; [done|].
  destruct (found _ _ P _) as [|p ps]; [done|].
  done.
Qed.

Lemma sales_data_of_row B C P r :
  sales_data_of [r] B C P = facts_of_row B C P r.
Proof. by rewrite sales_data_of_rows, bind_singleton. Qed.

Lemma found_branch_ids B r :
  found BranchDim.natural_key BranchDim.branch_id B (branch_key r)
  = branch_ids_of B r.
Proof.
  unfold found, branch_ids_of.
  rewrite (list_filter_iff _ (λ d, BranchDim.branch d = Csv.branch (Df.cols r)
                                   ∧ BranchDim.city d = Csv.city (Df.cols r)));
    [done|].
  intros d. split; [by intros [= -> ->]|].
  intros [Hb Hc]. unfold branch_key, customer_key, product_key.
  cbv [BranchDim.natural_key CustomerDim.natural_key ProductDim.natural_key].
  by rewrite Hb, Hc.
Qed.

Lemma found_customer_ids C r :
  found CustomerDim.natural_key CustomerDim.customer_id C (customer_key r)
  = customer_ids_of C r.
Proof.
  unfold found, customer_ids_of.
  rewrite (list_filter_iff _
             (λ d, CustomerDim.customer_type d = Csv.customer_type (Df.cols r)
                   ∧ CustomerDim.gender d = Csv.gender (Df.cols r)));
    [done|].
  intros d. split; [by intros [= -> ->]|].
  intros [Hb Hc]. unfold branch_key, customer_key, product_key.
  cbv [BranchDim.natural_key CustomerDim.natural_key ProductDim.natural_key].
  by rewrite Hb, Hc.
Qed.

Lemma found_product_ids P r :
  found ProductDim.natural_key ProductDim.product_id P (product_key r)
  = product_ids_of P r.
Proof.
  unfold found, product_ids_of.
  rewrite (list_filter_iff _
             (λ d, ProductDim.product_line d = Csv.product_line (Df.cols r)
                   ∧ ProductDim.unit_price d = Csv.unit_price (Df.cols r)));
    [done|].
  intros d. split; [by intros [= -> ->]|].
  intros [Hb Hc]. unfold branch_key, customer_key, product_key.
  cbv [BranchDim.natural_key CustomerDim.natural_key ProductDim.natural_key].
  by rewrite Hb, Hc.
Qed.

(** The foreign keys of the fact rows of one row of the frame. *)
Lemma foreign_keys_of_row B C P r :
  foreign_keys <$> sales_data_of [r] B C P
  = b ← branch_ids_of B r; c ← customer_ids_of C r;
    p ← product_ids_of P r; [(b, c, p)].
Proof.
  rewrite sales_data_of_row. unfold facts_of_row.
  rewrite found_branch_ids, found_customer_ids, found_product_ids.
  rewrite list_fmap_bind_r. apply list_bind_ext; [|done]. intros b.
  rewrite list_fmap_bind_r. apply list_bind_ext; [|done]. intros c.
  rewrite list_fmap_bind_r. by apply list_bind_ext.
Qed.

(** C6. The fact build is total and works row by row: a row of the frame
    always yields fact rows, between those of the rows before and after
    it, and their foreign keys are, dimension by dimension, the surrogate
    keys that the row's natural key resolves to in that dimension table.
    When the natural key of the row is absent from one dimension table,
    each of its fact rows has a null foreign key for that dimension, and
    its two other foreign keys are what they are without the miss: the
    surrogate keys that the row's natural keys resolve to in the two
    other tables. *)
Theorem join_miss (pre : list Df.row) (r : Df.row) (post : list Df.row)
    (B : list BranchDim.row) (C : list CustomerDim.row)
    (P : list ProductDim.row) :
  let facts := sales_data_of [r] B C P in
  (sales_data_of (pre ++ r :: post) B C P
   = sales_data_of pre B C P ++ facts ++ sales_data_of post B C P ∧
   facts ≠ []) ∧
  ((λ f, (SalesFact.branch_id f, SalesFact.customer_id f,
          SalesFact.product_id f)) <$> facts
   = b ← branch_ids_of B r; c ← customer_ids_of C r;
     p ← product_ids_of P r; [(b, c, p)]) ∧
  ((Csv.branch (Df.cols r), Csv.city (Df.cols r))
     ∉ (λ d, (BranchDim.branch d, BranchDim.city d)) <$> B →
   (λ f, (SalesFact.branch_id f, SalesFact.customer_id f,
          SalesFact.product_id f)) <$> facts
   = c ← customer_ids_of C r; p ← product_ids_of P r; [(None, c, p)]) ∧
  ((Csv.customer_type (Df.cols r), Csv.gender (Df.cols r))
     ∉ (λ d, (CustomerDim.customer_type d, CustomerDim.gender d)) <$> C →
   (λ f, (SalesFact.branch_id f, SalesFact.customer_id f,
          SalesFact.product_id f)) <$> facts
   = b ← branch_ids_of B r; p ← product_ids_of P r; [(b, None, p)]) ∧
  ((Csv.product_line (Df.cols r), Csv.unit_price (Df.cols r))
     ∉ (λ d, (ProductDim.product_line d, ProductDim.unit_price d)) <$> P →
   (λ f, (SalesFact.branch_id f, SalesFact.customer_id f,
          SalesFact.product_id f)) <$> facts
   = b ← branch_ids_of B r; c ← customer_ids_of C r; [(b, c, None)]).
Proof.
  intros facts. unfold facts.
  change (λ f, (SalesFact.branch_id f, SalesFact.customer_id f,
                SalesFact.product_id f)) with foreign_keys.
  rewrite foreign_keys_of_row.
  split; [split|split; [done|split; [|split]]].
  - rewrite sales_data_of_row, !sales_data_of_rows.
    by rewrite bind_app, bind_cons.
  - rewrite sales_data_of_row. apply facts_of_row_nonempty.
  - intros Hmiss. rewrite <-found_branch_ids.
    rewrite (found_None BranchDim.natural_key); [|exact Hmiss].
    by rewrite bind_singleton.
  - intros Hmiss. rewrite <-found_customer_ids.
    rewrite (found_None CustomerDim.natural_key); [|exact Hmiss].
    apply list_bind_ext; [|done]. intros b. by rewrite bind_singleton.
  - intros Hmiss. rewrite <-found_product_ids.
    rewrite (found_None ProductDim.natural_key); [|exact Hmiss].
    apply list_bind_ext; [|done]. intros b.
    apply list_bind_ext; [|done]. intros c. by rewrite bind_singleton.
Qed.

(** ** The load script as a whole *)
Section main_properties.
Variable strptime : string → option Timestamp.

Lemma main_loaded csv df conn :
  to_datetime strptime csv = Some df →
  main strptime csv conn
  = (Return (), MkStore (Some (branch_df df)) (Some (customer_df df))
                        (Some (product_df df)) (Some (sales_data df))).
Proof. intros Hdf. unfold main. by rewrite Hdf. Qed.

Lemma main_raised csv conn :
  to_datetime strptime csv = None →
  main strptime csv conn = (Raise ValueError, conn).
Proof. intros Hdf. unfold main. by rewrite Hdf. Qed.

Lemma main_inv csv conn conn' :
  main strptime csv conn = (Return (), conn') →
  ∃ df, to_datetime strptime csv = Some df ∧
        conn' = MkStore (Some (branch_df df)) (Some (customer_df df))
                        (Some (product_df df)) (Some (sales_data df)).
Proof.
  destruct (to_datetime strptime csv) as [df|] eqn:Hdf.
  - rewrite (main_loaded _ _ _ Hdf). intros [= <-]. eauto.
  - by rewrite (main_raised _ _ Hdf).
Qed.

End main_properties.

(** C7. When the combined date and time of some input row does not parse,
    the load raises and the store it leaves is the store it found: none
    of the four tables has been created or replaced. *)
Theorem parse_failure_aborts_before_write
    (strptime : string → option Timestamp) (csv : list Csv.row)
    (conn : Store) (r : Csv.row) (d t : string) :
  r ∈ csv → Csv.date r = Some d → Csv.time r = Some t →
  strptime (d +:+ " " +:+ t) = None →
  main strptime csv conn = (Raise ValueError, conn).
Proof.
  intros Hr Hd Ht Hparse. apply main_raised, mapM_None, Exists_exists.
  exists r. split; [done|].
  unfold to_datetime_cell. by rewrite Hd, Ht, Hparse.
Qed.

(** C8. On an extract without rows the load succeeds and writes four
    empty tables, whatever the store held, and the report on that store
    succeeds with no row. *)
Theorem empty_input (strptime : string → option Timestamp) (conn : Store) :
  main strptime [] conn
  = (Return (), MkStore (Some []) (Some []) (Some []) (Some [])) ∧
  generate_report (MkStore (Some []) (Some []) (Some []) (Some []))
  = (Return [], MkStore (Some []) (Some []) (Some []) (Some [])).
Proof. split; reflexivity. Qed.

(** ** Surrogate keys follow first occurrences *)

Lemma branch_df_first_occurrence pre r post :
  branch_key r ∉ branch_key <$> pre →
  let n := length (drop_duplicates (branch_key <$> pre)) in
  branch_df (pre ++ r :: post) !! n
  = Some (BranchDim.Build (Z.of_nat n + 1) (Df.branch r) (Df.city r)).
Proof.
  intros Hr n. unfold branch_df.
  apply (numbered_lookup (λ i k, BranchDim.Build i k.1 k.2) _ _ (branch_key r)).
  rewrite fmap_app, fmap_cons. by apply drop_duplicates_first_occurrence.
Qed.

Lemma customer_df_first_occurrence pre r post :
  customer_key r ∉ customer_key <$> pre →
  let n := length (drop_duplicates (customer_key <$> pre)) in
  customer_df (pre ++ r :: post) !! n
  = Some (CustomerDim.Build (Z.of_nat n + 1)
            (Df.customer_type r) (Df.gender r)).
Proof.
  intros Hr n. unfold customer_df.
  apply (numbered_lookup (λ i k, CustomerDim.Build i k.1 k.2)
           _ _ (customer_key r)).
  rewrite fmap_app, fmap_cons. by apply drop_duplicates_first_occurrence.
Qed.

Lemma product_df_first_occurrence pre r post :
  product_key r ∉ product_key <$> pre →
  let n := length (drop_duplicates (product_key <$> pre)) in
  product_df (pre ++ r :: post) !! n
  = Some (ProductDim.Build (Z.of_nat n + 1)
            (Df.product_line r) (Df.unit_price r)).
Proof.
  intros Hr n. unfold product_df.
  apply (numbered_lookup (λ i k, ProductDim.Build i k.1 k.2)
           _ _ (product_key r)).
  rewrite fmap_app, fmap_cons. by apply drop_duplicates_first_occurrence.
Qed.

(** C10. Two successful loads of the same extract leave the same three
    dimension tables, row for row, whatever the two stores held before.
    The tables are those of the loaded frame, in which the surrogate key
    of a natural key is one more than the number of distinct natural keys
    that occur before its first occurrence. *)
Theorem dimension_extraction_deterministic
    (strptime : string → option Timestamp) (csv : list Csv.row)
    (conn1 conn2 conn1' conn2' : Store) :
  main strptime csv conn1 = (Return (), conn1') →
  main strptime csv conn2 = (Return (), conn2') →
  (branch_dim conn1' = branch_dim conn2' ∧
   customer_dim conn1' = customer_dim conn2' ∧
   product_dim conn1' = product_dim conn2') ∧
  ∃ df, to_datetime strptime csv = Some df ∧
    branch_dim conn1' = Some (branch_df df) ∧
    customer_dim conn1' = Some (customer_df df) ∧
    product_dim conn1' = Some (product_df df) ∧
    ∀ pre r post, df = pre ++ r :: post →
      (branch_key r ∉ branch_key <$> pre →
         let n := length (drop_duplicates (branch_key <$> pre)) in
         branch_df df !! n
         = Some (BranchDim.Build (Z.of_nat n + 1) (Df.branch r) (Df.city r))) ∧
      (customer_key r ∉ customer_key <$> pre →
         let n := length (drop_duplicates (customer_key <$> pre)) in
         customer_df df !! n
         = Some (CustomerDim.Build (Z.of_nat n + 1)
                   (Df.customer_type r) (Df.gender r))) ∧
      (product_key r ∉ product_key <$> pre →
         let n := length (drop_duplicates (product_key <$> pre)) in
         product_df df !! n
         = Some (ProductDim.Build (Z.of_nat n + 1)
                   (Df.product_line r) (Df.unit_price r))).
Proof.
  intros (df & Hdf & ->)%main_inv (df' & Hdf' & ->)%main_inv.
  assert (df' = df) as -> by congruence.
  split; [done|]. exists df. repeat (split; [done|]).
  intros pre r post ->. split; [|split].
  - apply branch_df_first_occurrence.
  - apply customer_df_first_occurrence.
  - apply product_df_first_occurrence.
Qed.

(** ** The order of SQLite values *)
Section nulls_first.
Context {A : Type} (R : relation A).

Lemma nulls_first_refl `{!Reflexive R} x : nulls_first R x x.
Proof. destruct x; simpl; [reflexivity|done]. Qed.

Lemma nulls_first_trans `{!Transitive R} x y z :
  nulls_first R x y → nulls_first R y z → nulls_first R x z.
Proof. destruct x, y, z; simpl; try done. apply transitivity. Qed.

Lemma nulls_first_antisym `{!AntiSymm (=) R} x y :
  nulls_first R x y → nulls_first R y x → x = y.
Proof.
  destruct x, y; simpl; try done. intros ??. f_equal. by apply (anti_symm R).
Qed.

Lemma nulls_first_total `{!Total R} x y :
  nulls_first R x y ∨ nulls_first R y x.
Proof. destruct x, y; simpl; auto. Qed.

End nulls_first.

Lemma real_le_refl x : real_le x x.
Proof. apply nulls_first_refl. apply _. Qed.
Lemma real_le_trans x y z : real_le x y → real_le y z → real_le x z.
Proof. apply nulls_first_trans. apply _. Qed.
Lemma real_le_antisym x y : real_le x y → real_le y x → x = y.
Proof. apply nulls_first_antisym. apply _. Qed.
Lemma real_le_total x y : real_le x y ∨ real_le y x.
Proof. apply nulls_first_total. apply _. Qed.

Lemma text_le_trans x y z : text_le x y → text_le y z → text_le x z.
Proof. apply nulls_first_trans. apply _. Qed.
Lemma text_le_antisym x y : text_le x y → text_le y x → x = y.
Proof. apply nulls_first_antisym. apply _. Qed.
Lemma text_le_total x y : text_le x y ∨ text_le y x.
Proof. apply nulls_first_total. apply _. Qed.

Lemma real_lt_le_trans x y z : real_lt x y → real_le y z → real_lt x z.
Proof.
  intros [Hxy Hne] Hyz. split; [by eapply real_le_trans|].
  intros ->. apply Hne. by apply real_le_antisym.
Qed.

Lemma real_lt_not_le x y : real_lt x y → ¬ real_le y x.
Proof. intros [Hxy Hne] Hyx. apply Hne. by apply real_le_antisym. Qed.

Lemma real_le_or_lt x y : real_le x y ∨ real_lt y x.
Proof.
  destruct (decide (x = y)) as [->|Hne]; [left; apply real_le_refl|].
  destruct (real_le_total x y); [by left|right]. by split.
Qed.

#[global] Instance total_desc_total : Total total_desc.
Proof. intros x y. unfold total_desc. apply real_le_total. Qed.
#[global] Instance total_desc_trans : Transitive total_desc.
Proof. intros x y z ??. unfold total_desc in *. by eapply real_le_trans. Qed.

#[global] Instance order_by_total : Total order_by.
Proof.
  intros x y. unfold order_by, text_lt.
  destruct (decide (Cte.branch x = Cte.branch y)) as [Heq|Hne].
  - destruct (Nat.le_ge_cases (Cte.rank x) (Cte.rank y)).
    + right. right. by split.
    + left. right. by split.
  - destruct (text_le_total (Cte.branch x) (Cte.branch y)).
    + left. left. by split.
    + right. left. split; [done|]. by intros ?.
Qed.

#[global] Instance order_by_trans : Transitive order_by.
Proof.
  intros x y z. unfold order_by, text_lt.
  intros [[Hxy Hne]|[Hxy Hr]] [[Hyz Hne']|[Hyz Hr']].
  - left. split; [by eapply text_le_trans|].
    intros Heq. rewrite Heq in Hxy. apply Hne'. by apply text_le_antisym.
  - left. by rewrite <-Hyz.
  - left. by rewrite Hxy.
  - right. split; [congruence|lia].
Qed.

(** ** Dense rank: the walk along the sorted partition counts the distinct
    values above *)

Lemma rank_among_top (vals : gset real) (v : real) :
  (∀ t, t ∈ vals → real_le t v) → rank_among vals v = 1%nat.
Proof.
  intros Htop. unfold rank_among. f_equal. apply size_empty_iff.
  intros t. rewrite elem_of_filter. split; [|by intros ?%not_elem_of_empty].
  intros [Hlt Ht]. apply real_lt_not_le in Hlt. destruct Hlt. by apply Htop.
Qed.

Lemma rank_among_step (vals : gset real) (prev v : real) :
  prev ∈ vals → real_lt v prev →
  (∀ t, t ∈ vals → real_le prev t ∨ real_le t v) →
  rank_among vals v = S (rank_among vals prev).
Proof.
  intros Hprev Hlt Hgap. unfold rank_among. f_equal.
  assert (filter (real_lt v) vals
          = {[ prev ]} ∪ filter (real_lt prev) vals) as ->.
  { apply set_eq. intros t.
    rewrite elem_of_union, !elem_of_filter, elem_of_singleton. split.
    - intros [Hvt Ht]. destruct (decide (t = prev)) as [->|Hne]; [by left|].
      right. split; [|done]. destruct (Hgap t Ht) as [Hle|Hle].
      + split; [done|]. by intros ->.
      + by apply real_lt_not_le in Hvt.
    - intros [->|[Hpt Ht]]; [done|]. split; [|done].
      eapply real_lt_le_trans; [done|]. apply Hpt. }
  rewrite size_union, size_singleton; [done|].
  intros t. rewrite elem_of_singleton, elem_of_filter.
  intros -> [[_ Hne] _]. by apply Hne.
Qed.

Lemma dense_rank_from_spec (vals : gset real) (rows : list Report.row)
    (prev : real) :
  StronglySorted total_desc rows →
  Forall (λ r, real_le (Report.total_sales r) prev) rows →
  prev ∈ vals →
  Forall (λ r, Report.total_sales r ∈ vals) rows →
  (∀ t, t ∈ vals → real_le prev t ∨ t ∈ Report.total_sales <$> rows) →
  dense_rank_from prev (rank_among vals prev) rows = ranked vals <$> rows.
Proof.
  revert prev. induction rows as [|r rows IH]; intros prev; [done|].
  intros Hsorted Hle Hprev Hin Hcover.
  apply StronglySorted_inv in Hsorted as [Hsorted Hr].
  apply Forall_cons in Hle as [Hrp Hle].
  apply Forall_cons in Hin as [Hrin Hin].
  assert ((if decide (Report.total_sales r = prev)
           then rank_among vals prev else S (rank_among vals prev))
          = rank_among vals (Report.total_sales r)) as Hrank.
  { destruct (decide (Report.total_sales r = prev)) as [->|Hne]; [done|].
    symmetry. apply rank_among_step; [done|by split|].
    intros t Ht. destruct (Hcover t Ht) as [?|Hmem]; [by left|right].
    rewrite fmap_cons, elem_of_cons in Hmem.
    destruct Hmem as [->|(r' & -> & Hr')%list_elem_of_fmap];
      [apply real_le_refl|].
    rewrite Forall_forall in Hr. by apply Hr. }
  simpl. rewrite Hrank. f_equal. apply IH; try done.
  intros t Ht. destruct (Hcover t Ht) as [Hpt|Hmem].
  - left. by eapply real_le_trans.
  - rewrite fmap_cons, elem_of_cons in Hmem.
    destruct Hmem as [->|?]; [left; apply real_le_refl|by right].
Qed.

Lemma dense_rank_spec (partition : list Report.row) :
  dense_rank partition
  = ranked (list_to_set (Report.total_sales <$> partition))
      <$> merge_sort total_desc partition.
Proof.
  unfold dense_rank.
  pose proof (StronglySorted_merge_sort total_desc partition) as Hsorted.
  pose proof (merge_sort_Permutation total_desc partition) as Hperm.
  set (vals := list_to_set (Report.total_sales <$> partition) : gset real).
  assert (∀ t, t ∈ vals ↔
               t ∈ Report.total_sales <$> merge_sort total_desc partition)
    as Hvals.
  { intros t. unfold vals. by rewrite elem_of_list_to_set, Hperm. }
  destruct (merge_sort total_desc partition) as [|r rows]; [done|].
  apply StronglySorted_inv in Hsorted as [Hsorted Hr].
  assert (rank_among vals (Report.total_sales r) = 1%nat) as Htop.
  { apply rank_among_top. intros t Ht. apply Hvals in Ht.
    rewrite fmap_cons, elem_of_cons in Ht.
    destruct Ht as [->|(r' & -> & Hr')%list_elem_of_fmap];
      [apply real_le_refl|].
    rewrite Forall_forall in Hr. by apply Hr. }
  rewrite fmap_cons. unfold ranked at 1. rewrite Htop. f_equal.
  rewrite <-Htop. apply dense_rank_from_spec; try done.
  - apply Hvals. rewrite fmap_cons. left.
  - apply Forall_forall. intros r' Hr'. apply Hvals.
    rewrite fmap_cons. right. by apply list_elem_of_fmap_2.
  - intros t Ht. apply Hvals in Ht. rewrite fmap_cons, elem_of_cons in Ht.
    destruct Ht as [->|?]; [left; apply real_le_refl|by right].
Qed.

(** ** Grouping *)

Lemma group_by_keys rows :
  report_key <$> group_by rows = drop_duplicates (group_key <$> rows).
Proof.
  unfold group_by. rewrite <-list_fmap_compose.
  rewrite <-(list_fmap_id (drop_duplicates _)) at 2.
  apply list_fmap_ext. by intros _ [b p] _.
Qed.

Lemma elem_of_group_by rows r :
  r ∈ group_by rows ↔
  in_group rows (Report.branch r) (Report.product_line r) ∧
  Report.total_sales r
  = group_total rows (Report.branch r) (Report.product_line r).
Proof.
  unfold group_by, in_group, group_total, group_sum.
  change branch_and_line with group_key.
  rewrite list_elem_of_fmap.
  setoid_rewrite elem_of_drop_duplicates. split.
  - by intros ([b p] & -> & Hk).
  - intros [Hk Ht]. exists (Report.branch r, Report.product_line r).
    split; [|done]. destruct r as [b p t]. simpl in *. by rewrite Ht.
Qed.

Lemma NoDup_group_by rows : NoDup (report_key <$> group_by rows).
Proof. rewrite group_by_keys. apply NoDup_drop_duplicates. Qed.

Lemma elem_of_location_categories rows b p :
  p ∈ location_categories rows b ↔ in_group rows b p.
Proof.
  unfold location_categories, in_group.
  change branch_and_line with group_key.
  rewrite elem_of_list_to_set, list_elem_of_fmap.
  setoid_rewrite list_elem_of_filter. split.
  - by intros ([b' p'] & -> & <- & Hk).
  - intros Hk. by exists (b, p).
Qed.

Lemma elem_of_location_totals rows b t :
  t ∈ location_totals rows b ↔
  ∃ p, in_group rows b p ∧ t = group_total rows b p.
Proof.
  unfold location_totals. rewrite elem_of_map.
  setoid_rewrite elem_of_location_categories. split.
  - intros (p & -> & Hp). eauto.
  - intros (p & Hp & ->). eauto.
Qed.

Lemma partition_totals rows b :
  list_to_set (Report.total_sales <$>
                 filter (λ r, Report.branch r = b) (group_by rows))
  = location_totals rows b.
Proof.
  apply set_eq. intros t.
  rewrite elem_of_list_to_set, list_elem_of_fmap, elem_of_location_totals.
  setoid_rewrite list_elem_of_filter. setoid_rewrite elem_of_group_by. split.
  - intros (r & -> & <- & Hg & Ht). eauto.
  - intros (p & Hg & ->). by exists (Report.Build b p (group_total rows b p)).
Qed.

(** ** The window *)

Lemma over_partition_by_branch_spec (G : list Report.row) :
  over_partition_by_branch G
  = b ← drop_duplicates (Report.branch <$> G);
    ranked (list_to_set (Report.total_sales <$>
                           filter (λ r, Report.branch r = b) G))
      <$> merge_sort total_desc (filter (λ r, Report.branch r = b) G).
Proof.
  unfold over_partition_by_branch. apply list_bind_ext; [|done].
  intros b. apply dense_rank_spec.
Qed.

Lemma elem_of_over_partition_by_branch (G : list Report.row) (c : Cte.row) :
  c ∈ over_partition_by_branch G ↔
  ∃ r, r ∈ G ∧
    c = ranked (list_to_set
                  (Report.total_sales <$>
                     filter (λ r', Report.branch r' = Report.branch r) G)) r.
Proof.
  rewrite over_partition_by_branch_spec, list_elem_of_bind.
  setoid_rewrite list_elem_of_fmap.
  setoid_rewrite merge_sort_Permutation.
  setoid_rewrite list_elem_of_filter.
  setoid_rewrite elem_of_drop_duplicates. split.
  - intros (b & (r & -> & <- & Hr) & _). eauto.
  - intros (r & Hr & ->). exists (Report.branch r). split.
    + by exists r.
    + by apply list_elem_of_fmap_2.
Qed.

Lemma NoDup_over_partition_by_branch (G : list Report.row) :
  NoDup (report_key <$> G) → NoDup (cte_key <$> over_partition_by_branch G).
Proof.
  intros HG. rewrite over_partition_by_branch_spec, list_fmap_bind_r.
  assert (∀ b, cte_key <$>
                 (ranked (list_to_set (Report.total_sales <$>
                            filter (λ r, Report.branch r = b) G))
                    <$> merge_sort total_desc
                          (filter (λ r, Report.branch r = b) G))
               ≡ₚ report_key <$> filter (λ r, Report.branch r = b) G) as Hkeys.
  { intros b. rewrite <-list_fmap_compose, merge_sort_Permutation. done. }
  apply NoDup_bind.
  - intros b1 b2 k _ _. rewrite !Hkeys, !list_elem_of_fmap.
    setoid_rewrite list_elem_of_filter.
    intros (r1 & -> & <- & _) (r2 & Hk & <- & _). by injection Hk.
  - intros b _. rewrite Hkeys.
    eapply sublist_NoDup; [exact HG|]. apply fmap_sublist, sublist_filter.
  - apply NoDup_drop_duplicates.
Qed.

(** ** The query *)

Lemma elem_of_CTE sales_fact branch_dim product_dim c :
  let rows := from_joins sales_fact branch_dim product_dim in
  c ∈ CTE sales_fact branch_dim product_dim ↔
  in_group rows (Cte.branch c) (Cte.product_line c) ∧
  Cte.total_sales c = group_total rows (Cte.branch c) (Cte.product_line c) ∧
  Cte.rank c = dense_rank_of rows (Cte.branch c) (Cte.total_sales c).
Proof.
  intros rows. unfold CTE. fold rows.
  rewrite elem_of_over_partition_by_branch.
  setoid_rewrite partition_totals. setoid_rewrite elem_of_group_by. split.
  - by intros (r & [Hg Ht] & ->).
  - intros (Hg & Ht & Hr). destruct c as [b p t k]. simpl in *.
    exists (Report.Build b p t). split; [done|].
    unfold ranked. simpl. by rewrite Hr.
Qed.

Lemma NoDup_CTE sales_fact branch_dim product_dim :
  NoDup (cte_key <$> CTE sales_fact branch_dim product_dim).
Proof. apply NoDup_over_partition_by_branch, NoDup_group_by. Qed.

Lemma StronglySorted_fmap_elem_of {A B} (f : A → B)
    (R1 : relation A) (R2 : relation B) (l : list A) :
  (∀ x y, x ∈ l → y ∈ l → R1 x y → R2 (f x) (f y)) →
  StronglySorted R1 l → StronglySorted R2 (f <$> l).
Proof.
  intros HR Hsorted. induction Hsorted as [|x l Hl IH Hx]; csimpl;
    constructor.
  - apply IH. intros y z Hy Hz. apply HR; by right.
  - rewrite Forall_fmap. rewrite Forall_forall in Hx |- *.
    intros y Hy. simpl. apply HR; [left|by right|by apply Hx].
Qed.

Lemma size_list_to_set_le `{Countable A} (l : list A) :
  (size (list_to_set (C:=gset A) l) ≤ length l)%nat.
Proof.
  induction l as [|x l IH].
  - by rewrite list_to_set_nil, size_empty.
  - rewrite list_to_set_cons, size_union_alt, size_singleton. simpl.
    pose proof (subseteq_size (list_to_set l ∖ {[x]})
                  (list_to_set (C:=gset A) l)) as Hle.
    assert (list_to_set l ∖ {[x]} ⊆ list_to_set (C:=gset A) l) as Hsub.
    { intros y. rewrite elem_of_difference. tauto. }
    specialize (Hle Hsub). lia.
Qed.

Lemma size_location_totals rows b :
  (size (location_totals rows b) ≤ size (location_categories rows b))%nat.
Proof.
  unfold location_totals, set_map.
  etrans; [apply size_list_to_set_le|]. by rewrite length_fmap.
Qed.

Lemma rank_among_le_size (vals : gset real) (t : real) :
  t ∈ vals → (rank_among vals t ≤ size vals)%nat.
Proof.
  intros Ht. unfold rank_among. apply Nat.le_succ_l, subset_size.
  split.
  - intros t'. rewrite elem_of_filter. tauto.
  - intros Hsub. specialize (Hsub t Ht).
    apply elem_of_filter in Hsub as [[_ Hne] _]. by apply Hne.
Qed.

(** The walk never skips a rank. *)
Lemma dense_rank_from_no_gap prev rank rows c k :
  c ∈ dense_rank_from prev rank rows →
  (rank < k ≤ Cte.rank c)%nat →
  ∃ c', c' ∈ dense_rank_from prev rank rows ∧ Cte.rank c' = k.
Proof.
  revert prev rank. induction rows as [|r rows IH]; intros prev rank; simpl.
  { by intros ?%not_elem_of_nil. }
  set (rank' := if decide (Report.total_sales r = prev)
                then rank else S rank).
  assert (rank' = rank ∨ rank' = S rank) as Hrank'
    by (unfold rank'; case_decide; auto).
  rewrite elem_of_cons. intros [->|Hc] Hk; simpl in *.
  - eexists. split; [left|]. simpl. lia.
  - destruct (decide (k = rank')) as [->|Hne].
    + eexists. split; [left|]. done.
    + destruct (IH _ _ Hc) as (c' & Hc' & Hk'); [lia|].
      exists c'. split; [by right|done].
Qed.

Lemma dense_rank_no_gap partition c k :
  c ∈ dense_rank partition → (1 ≤ k ≤ Cte.rank c)%nat →
  ∃ c', c' ∈ dense_rank partition ∧ Cte.rank c' = k.
Proof.
  unfold dense_rank. destruct (merge_sort total_desc partition) as [|r rows].
  { by intros ?%not_elem_of_nil. }
  rewrite elem_of_cons. intros Hc Hk.
  destruct (decide (k = 1%nat)) as [->|Hne].
  { eexists. split; [left|]. done. }
  destruct Hc as [->|Hc]; [simpl in Hk; lia|].
  destruct (dense_rank_from_no_gap _ _ _ _ k Hc) as (c' & Hc' & Hk'); [lia|].
  exists c'. split; [by right|done].
Qed.

Lemma dense_rank_branch (G : list Report.row) (b : text) (c : Cte.row) :
  c ∈ dense_rank (filter (λ r, Report.branch r = b) G) → Cte.branch c = b.
Proof.
  rewrite dense_rank_spec, list_elem_of_fmap.
  setoid_rewrite merge_sort_Permutation.
  setoid_rewrite list_elem_of_filter. by intros (r & -> & <- & _).
Qed.

Lemma CTE_no_gap sales_fact branch_dim product_dim c k :
  c ∈ CTE sales_fact branch_dim product_dim →
  (1 ≤ k ≤ Cte.rank c)%nat →
  ∃ c', c' ∈ CTE sales_fact branch_dim product_dim ∧
        Cte.branch c' = Cte.branch c ∧ Cte.rank c' = k.
Proof.
  unfold CTE, over_partition_by_branch.
  intros (b & Hc & Hb)%list_elem_of_bind Hk.
  destruct (dense_rank_no_gap _ _ _ Hc Hk) as (c' & Hc' & Hk').
  exists c'. split; [|split; [|done]].
  - apply list_elem_of_bind. eauto.
  - apply dense_rank_branch in Hc, Hc'. congruence.
Qed.

Lemma elem_of_top3_query sales_fact branch_dim product_dim b p t :
  let rows := from_joins sales_fact branch_dim product_dim in
  Report.Build b p t ∈ top3_query sales_fact branch_dim product_dim ↔
  in_group rows b p ∧ t = group_total rows b p ∧
  (dense_rank_of rows b t ≤ 3)%nat.
Proof.
  intros rows. unfold top3_query. rewrite list_elem_of_fmap.
  setoid_rewrite merge_sort_Permutation.
  setoid_rewrite list_elem_of_filter.
  setoid_rewrite elem_of_CTE. fold rows. split.
  - intros ([b' p' t' k] & [= -> -> ->] & Hk & Hg & Ht & Hr).
    simpl in *. rewrite <-Hr. done.
  - intros (Hg & Ht & Hr).
    by exists (Cte.Build b p t (dense_rank_of rows b t)).
Qed.

Lemma top3_query_sorted sales_fact branch_dim product_dim :
  StronglySorted
    (report_order (from_joins sales_fact branch_dim product_dim))
    (top3_query sales_fact branch_dim product_dim).
Proof.
  unfold top3_query.
  eapply StronglySorted_fmap_elem_of;
    [|apply (StronglySorted_merge_sort order_by)].
  intros x y Hx Hy.
  rewrite merge_sort_Permutation in Hx, Hy.
  apply list_elem_of_filter in Hx as [_ Hx], Hy as [_ Hy].
  apply elem_of_CTE in Hx as (_ & _ & Hx), Hy as (_ & _ & Hy).
  unfold order_by, report_order. simpl. by rewrite Hx, Hy.
Qed.

Lemma NoDup_top3_query sales_fact branch_dim product_dim :
  NoDup (report_key <$> top3_query sales_fact branch_dim product_dim).
Proof.
  unfold top3_query. rewrite <-list_fmap_compose.
  change (report_key ∘ Cte.select) with cte_key.
  rewrite merge_sort_Permutation.
  eapply sublist_NoDup; [apply NoDup_CTE|].
  apply fmap_sublist, sublist_filter.
Qed.

(** ** Totals of whole numbers *)

Lemma abs_sum_le (vs : list Z) :
  Z.abs (foldr Z.add 0 vs) ≤ foldr Z.add 0 (Z.abs <$> vs).
Proof.
  induction vs as [|v vs IH]; [done|]. rewrite fmap_cons. cbn [foldr]. lia.
Qed.

Lemma moderate_whole_sum (zs : list integer) :
  moderate zs → moderate [whole_sum zs].
Proof.
  unfold moderate, whole_sum. intros Hzs.
  pose proof (abs_sum_le (omap id zs)) as Hle.
  destruct (omap id zs) as [|v vs]; [done|].
  cbn [omap list_omap id fmap list_fmap foldr] in *. lia.
Qed.

Lemma group_total_whole (rows : list joined) (b p : text)
    (zs : list integer) :
  exact_on_whole_numbers →
  (λ j : joined, SalesFact.sales j.1.1)
    <$> filter (λ j, branch_and_line j = (b, p)) rows = whole <$> zs →
  moderate zs →
  group_total rows b p = whole (whole_sum zs).
Proof.
  intros [HSUM HROUND] Hzs Hmod. unfold group_total, group_sum.
  rewrite Hzs, (HSUM zs Hmod). by apply HROUND, moderate_whole_sum.
Qed.

(** ** The joins *)

Lemma list_prod_app {A B} (l1 l2 : list A) (k : list B) :
  list_prod (l1 ++ l2) k = list_prod l1 k ++ list_prod l2 k.
Proof.
  induction l1 as [|x l1 IH]; simpl; [done|].
  by rewrite IH, (assoc_L (++)).
Qed.

Lemma joined_rows_of_pair (P : list ProductDim.row) (s : SalesFact.row)
    (b : BranchDim.row) :
  filter (λ j : joined,
            SalesFact.branch_id j.1.1 = Some (BranchDim.branch_id j.1.2) ∧
            SalesFact.product_id j.1.1 = Some (ProductDim.product_id j.2))
         (map (pair (s, b)) P)
  = if decide (SalesFact.branch_id s = Some (BranchDim.branch_id b))
    then (λ p, (s, b, p))
           <$> filter (λ p, SalesFact.product_id s
                            = Some (ProductDim.product_id p)) P
    else [].
Proof.
  induction P as [|p P IH]; simpl; [by case_decide|].
  rewrite !filter_cons, IH. simpl.
  destruct (decide (SalesFact.branch_id s = Some (BranchDim.branch_id b)))
    as [Hb|Hb];
    destruct (decide (SalesFact.product_id s
                      = Some (ProductDim.product_id p))) as [Hp|Hp].
  - by rewrite decide_True.
  - rewrite decide_False; [done|]. by intros [_ ?].
  - rewrite decide_False; [done|]. by intros [? _].
  - rewrite decide_False; [done|]. by intros [? _].
Qed.

Lemma joined_rows_of_fact (B : list BranchDim.row) (P : list ProductDim.row)
    (s : SalesFact.row) :
  filter (λ j : joined,
            SalesFact.branch_id j.1.1 = Some (BranchDim.branch_id j.1.2) ∧
            SalesFact.product_id j.1.1 = Some (ProductDim.product_id j.2))
         (list_prod (map (pair s) B) P)
  = b ← filter (λ b, SalesFact.branch_id s = Some (BranchDim.branch_id b)) B;
    p ← filter (λ p, SalesFact.product_id s
                     = Some (ProductDim.product_id p)) P;
    [(s, b, p)].
Proof.
  induction B as [|b B IH]; simpl; [done|].
  rewrite filter_app, joined_rows_of_pair, IH, filter_cons.
  case_decide; [|done]. by rewrite bind_cons, list_bind_ret_fmap.
Qed.

(** The nested loops of the query enumerate the joined rows. *)
Lemma from_joins_joined_rows sales_fact branch_dim product_dim :
  from_joins sales_fact branch_dim product_dim
  = joined_rows sales_fact branch_dim product_dim.
Proof.
  unfold from_joins, joined_rows.
  induction sales_fact as [|s S IH]; [done|].
  rewrite bind_cons, IH. cbn [list_prod].
  by rewrite list_prod_app, filter_app, joined_rows_of_fact.
Qed.

(** C1. The report holds exactly one row for each group of joined rows,
    a group being a branch and a product line, whose dense rank within
    its branch is at most 3. The joined rows are the combinations of a
    fact row, a branch row and a product row that agree on the branch
    key and on the product key. The row of a group carries the value
    that [ROUND(., 2)] returns on what [SUM] returns on the sales of the
    joined rows of the group. The dense rank of a group is one more than
    the number of distinct such values of its branch above its own. The
    rows come out by branch ascending and, within a branch, by rank
    descending. A branch with at most three product lines has all of
    them in the report, a group that ties with a reported group of its
    branch is reported too, and the ranks of a branch leave no gap: every
    rank from 1 up to the rank of a group is the rank of some group.
    Where the arithmetic is exact the value carried is the sum: when
    [SUM] and [ROUND] are exact on whole numbers and the sales of the
    joined rows of a group are whole numbers of moderate size, the row of
    the group carries the sum of those that are present. *)
Theorem report_ranking (sales_fact : list SalesFact.row)
    (branch_dim : list BranchDim.row) (product_dim : list ProductDim.row) :
  let rows := joined_rows sales_fact branch_dim product_dim in
  let report := top3_query sales_fact branch_dim product_dim in
  (∀ b p t, Report.Build b p t ∈ report ↔
            in_group rows b p ∧ t = group_total rows b p ∧
            (dense_rank_of rows b t ≤ 3)%nat) ∧
  NoDup ((λ r, (Report.branch r, Report.product_line r)) <$> report) ∧
  StronglySorted (report_order rows) report ∧
  (∀ b p, in_group rows b p →
          (size (location_categories rows b) ≤ 3)%nat →
          Report.Build b p (group_total rows b p) ∈ report) ∧
  (∀ b p p' t, Report.Build b p t ∈ report →
               in_group rows b p' → group_total rows b p' = t →
               Report.Build b p' t ∈ report) ∧
  (∀ b p k, in_group rows b p →
            (1 ≤ k ≤ dense_rank_of rows b (group_total rows b p))%nat →
            ∃ p', in_group rows b p' ∧
                  dense_rank_of rows b (group_total rows b p') = k) ∧
  (exact_on_whole_numbers →
   ∀ b p t (zs : list integer),
     Report.Build b p t ∈ report →
     (λ j : joined, SalesFact.sales j.1.1)
       <$> filter (λ j, branch_and_line j = (b, p)) rows = whole <$> zs →
     moderate zs →
     t = whole (whole_sum zs)).
Proof.
  rewrite <-from_joins_joined_rows.
  intros rows report.
  split; [|split; [|split; [|split; [|split; [|split]]]]].
  - intros b p t. apply elem_of_top3_query.
  - apply NoDup_top3_query.
  - apply top3_query_sorted.
  - intros b p Hg Hsize. apply elem_of_top3_query. fold rows.
    split; [done|]. split; [done|].
    etrans; [apply rank_among_le_size|].
    + apply elem_of_location_totals. eauto.
    + etrans; [apply size_location_totals|done].
  - intros b p p' t (_ & _ & Hr)%elem_of_top3_query Hg' Ht.
    apply elem_of_top3_query. by fold rows.
  - intros b p k Hg Hk.
    destruct (CTE_no_gap sales_fact branch_dim product_dim
                (Cte.Build b p (group_total rows b p)
                   (dense_rank_of rows b (group_total rows b p))) k)
      as ([b' p' t' k'] & (Hg' & Ht' & Hr')%elem_of_CTE & Hb' & Hk');
      [by apply elem_of_CTE|done|].
    fold rows in Hg', Ht', Hr'. simpl in *. subst b' t' k'.
    exists p'. by split.
  - intros Hexact b p t zs (_ & -> & _)%elem_of_top3_query Hzs Hmod.
    fold rows. by apply group_total_whole.
Qed.

(** ** Fact rows with a null key *)

Lemma list_bind_nil {A B} (l : list A) : l ≫= (λ _, @nil B) = [].
Proof. induction l as [|x l IH]; [done|]. by rewrite bind_cons, IH. Qed.

Lemma from_joins_app s1 s2 B P :
  from_joins (s1 ++ s2) B P = from_joins s1 B P ++ from_joins s2 B P.
Proof. unfold from_joins. apply bind_app. Qed.

Lemma from_joins_null_key f B P :
  SalesFact.branch_id f = None ∨ SalesFact.product_id f = None →
  from_joins [f] B P = [].
Proof.
  intros Hnull. unfold from_joins. rewrite bind_singleton.
  destruct Hnull as [Hb|Hp].
  - rewrite Hb, (filter_none _ B); [done|]. by intros b _.
  - rewrite Hp, (filter_none _ P); [apply list_bind_nil|]. by intros p _.
Qed.

(** C9. A fact row whose branch key or product key is null joins with
    nothing: it yields no joined row, so the joined rows, and with them
    every total, every rank and the report, are those of the fact table
    without that row. *)
Theorem null_keys_excluded (pre : list SalesFact.row) (f : SalesFact.row)
    (post : list SalesFact.row) (branch_dim : list BranchDim.row)
    (product_dim : list ProductDim.row) :
  SalesFact.branch_id f = None ∨ SalesFact.product_id f = None →
  from_joins [f] branch_dim product_dim = [] ∧
  from_joins (pre ++ f :: post) branch_dim product_dim
  = from_joins (pre ++ post) branch_dim product_dim ∧
  CTE (pre ++ f :: post) branch_dim product_dim
  = CTE (pre ++ post) branch_dim product_dim ∧
  top3_query (pre ++ f :: post) branch_dim product_dim
  = top3_query (pre ++ post) branch_dim product_dim.
Proof.
  intros Hnull.
  pose proof (from_joins_null_key f branch_dim product_dim Hnull) as Hf.
  assert (from_joins (pre ++ f :: post) branch_dim product_dim
          = from_joins (pre ++ post) branch_dim product_dim) as Hrows.
  { rewrite (from_joins_app pre (f :: post)).
    change (f :: post) with ([f] ++ post).
    by rewrite (from_joins_app [f] post), Hf, from_joins_app. }
  split; [done|]. split; [done|].
  unfold top3_query, CTE. by rewrite Hrows.
Qed.

(** ** Rounding and ties *)

Lemma rank_among_lt (vals : gset real) (t1 t2 : real) :
  t2 ∈ vals → real_lt t1 t2 → (rank_among vals t2 < rank_among vals t1)%nat.
Proof.
  intros Ht2 Hlt. unfold rank_among. apply ->Nat.succ_lt_mono.
  apply subset_size. split.
  - intros t. rewrite !elem_of_filter. intros [Ht ?]. split; [|done].
    eapply real_lt_le_trans; [done|]. apply Ht.
  - intros Hsub. specialize (Hsub t2).
    rewrite !elem_of_filter in Hsub. destruct Hsub as [[_ Hne] _]; done.
Qed.

Lemma rank_among_inj (vals : gset real) (t1 t2 : real) :
  t1 ∈ vals → t2 ∈ vals → rank_among vals t1 = rank_among vals t2 → t1 = t2.
Proof.
  intros Ht1 Ht2 Hrank.
  destruct (decide (t1 = t2)) as [|Hne]; [done|]. exfalso.
  destruct (real_le_total t1 t2) as [Hle|Hle].
  - pose proof (rank_among_lt vals t1 t2 Ht2 (conj Hle Hne)). lia.
  - assert (t2 ≠ t1) as Hne' by by intros ->.
    pose proof (rank_among_lt vals t2 t1 Ht1 (conj Hle Hne')). lia.
Qed.

(** C5, as the query has it. The rank is taken on the totals after
    [ROUND(., 2)]: the total of each product line of a branch is the
    value that [ROUND(., 2)] returns on the [SUM] of its sales, and two
    product lines of one branch have the same rank exactly when these
    values are equal. *)
Theorem rounded_totals_tie (sales_fact : list SalesFact.row)
    (branch_dim : list BranchDim.row) (product_dim : list ProductDim.row)
    (c1 c2 : Cte.row) :
  let rows := joined_rows sales_fact branch_dim product_dim in
  c1 ∈ CTE sales_fact branch_dim product_dim →
  c2 ∈ CTE sales_fact branch_dim product_dim →
  Cte.branch c1 = Cte.branch c2 →
  Cte.total_sales c1
  = ROUND (group_sum rows (Cte.branch c1) (Cte.product_line c1)) 2 ∧
  Cte.total_sales c2
  = ROUND (group_sum rows (Cte.branch c2) (Cte.product_line c2)) 2 ∧
  (Cte.rank c1 = Cte.rank c2 ↔ Cte.total_sales c1 = Cte.total_sales c2).
Proof.
  rewrite <-from_joins_joined_rows.
  intros rows (Hg1 & Ht1 & Hr1)%elem_of_CTE (Hg2 & Ht2 & Hr2)%elem_of_CTE Hb.
  fold rows in Hg1, Ht1, Hr1, Hg2, Ht2, Hr2.
  split; [done|]. split; [done|].
  rewrite Hr1, Hr2, <-Hb. unfold dense_rank_of. split.
  - apply rank_among_inj; apply elem_of_location_totals.
    + eauto.
    + rewrite Hb. eauto.
  - by intros ->.
Qed.

(** * Further properties of the two scripts *)

(** ** The header *)

Lemma str_map_compose f g s : str_map g (str_map f s) = str_map (g ∘ f) s.
Proof. induction s as [|c s IH]; simpl; [done|]. by rewrite IH. Qed.

Lemma str_map_ext f g s : (∀ c, f c = g c) → str_map f s = str_map g s.
Proof.
  intros Hfg. induction s as [|c s IH]; simpl; [done|]. by rewrite Hfg, IH.
Qed.

Lemma characters_str_map f s : characters (str_map f s) = f <$> characters s.
Proof. induction s as [|c s IH]; simpl; [done|]. by rewrite IH. Qed.

Lemma normalise_char_idemp c :
  normalise_char (normalise_char c) = normalise_char c.
Proof. by destruct c as [[] [] [] [] [] [] [] []]; vm_compute. Qed.

Lemma normalise_char_canonical c :
  normalise_char c ≠ " "%char ∧ ¬ is_upper (normalise_char c).
Proof.
  destruct c as [[] [] [] [] [] [] [] []]; vm_compute; split; try discriminate;
    intros [H1 H2]; first [by apply H1 | by apply H2].
Qed.

Lemma normalise_str s :
  str_replace " " "_" (str_lower s) = str_map normalise_char s.
Proof. unfold str_replace, str_lower. by rewrite str_map_compose. Qed.

Lemma rename_cases name :
  (name = "tax_5%" ∧ rename columns_mapper name = "tax_amount") ∨
  (name = "payment" ∧ rename columns_mapper name = "payment_mode") ∨
  (name ≠ "tax_5%" ∧ name ≠ "payment" ∧ rename columns_mapper name = name).
Proof.
  destruct (decide (name = "tax_5%")) as [->|H1]; [by left|].
  destruct (decide (name = "payment")) as [->|H2]; [by right; left|].
  right. right. split; [done|]. split; [done|].
  unfold rename, columns_mapper.
  by rewrite lookup_insert_ne, lookup_singleton_ne.
Qed.

Lemma renamed_column_idemp name :
  rename columns_mapper
    (str_map normalise_char
       (rename columns_mapper (str_map normalise_char name)))
  = rename columns_mapper (str_map normalise_char name).
Proof.
  destruct (rename_cases (str_map normalise_char name))
    as [[_ ->]|[[_ ->]|(H1 & H2 & ->)]]; [done..|].
  rewrite str_map_compose.
  rewrite (str_map_ext _ normalise_char) by apply normalise_char_idemp.
  by destruct (rename_cases (str_map normalise_char name))
    as [[? _]|[[? _]|(_ & _ & ->)]].
Qed.

(** X1. Renaming a header that has already been renamed changes nothing. *)
Theorem renamed_columns_idempotent (columns : list string) :
  Forall ascii_name columns →
  renamed_columns (renamed_columns columns) = renamed_columns columns.
Proof.
  intros _. unfold renamed_columns.
  rewrite <-!list_fmap_compose. apply list_fmap_ext. intros _ name _. simpl.
  rewrite !normalise_str. apply renamed_column_idemp.
Qed.

(** X2. No renamed column name holds a space or a capital letter. *)
Theorem renamed_columns_canonical (columns : list string) :
  Forall ascii_name columns →
  Forall canonical_name (renamed_columns columns).
Proof.
  intros _. unfold renamed_columns.
  rewrite <-!list_fmap_compose. apply Forall_fmap, Forall_forall.
  intros name _. simpl. rewrite normalise_str.
  destruct (rename_cases (str_map normalise_char name))
    as [[_ ->]|[[_ ->]|(_ & _ & ->)]].
  - unfold canonical_name. simpl. repeat constructor; try discriminate;
      intros [H1 H2]; vm_compute in H1, H2; first [by apply H1|by apply H2].
  - unfold canonical_name. simpl. repeat constructor; try discriminate;
      intros [H1 H2]; vm_compute in H1, H2; first [by apply H1|by apply H2].
  - unfold canonical_name. rewrite characters_str_map.
    apply Forall_fmap, Forall_forall. intros c _.
    apply normalise_char_canonical.
Qed.

(** ** The combined timestamp *)

(** The frame has the rows of the extract, in order. *)
Lemma to_datetime_rows (strptime : string → option Timestamp) csv df :
  to_datetime strptime csv = Some df →
  Forall2 (λ r x, Df.cols x = r) csv df.
Proof.
  intros Hdf%mapM_Some_1. eapply Forall2_impl; [exact Hdf|].
  intros r x. simpl.
  destruct (to_datetime_cell _ _ _) as [ts|]; [|done]. by intros [= <-].
Qed.

(** ** Full refresh *)

(** X5. The store a successful load leaves is determined by the extract
    alone: from any other store, an earlier load's included, the same load
    leaves the same four tables. *)
Theorem main_full_refresh (strptime : string → option Timestamp)
    (csv : list Csv.row) (conn conn' conn0 : Store) :
  main strptime csv conn = (Return (), conn') →
  main strptime csv conn0 = (Return (), conn').
Proof. intros (df & Hdf & ->)%main_inv. by apply main_loaded. Qed.

(** ** More on the fact table *)

Lemma elem_of_branch_df_id df b :
  b ∈ branch_df df →
  1 ≤ BranchDim.branch_id b ≤ Z.of_nat (length (branch_df df)).
Proof.
  intros Hb.
  assert (BranchDim.branch_id b ∈ BranchDim.branch_id <$> branch_df df) as Hid
    by by apply list_elem_of_fmap_2.
  replace (length (branch_df df))
    with (length (BranchDim.branch_id <$> branch_df df))
    by apply length_fmap.
  rewrite branch_df_ids in Hid |- *. rewrite length_seqZ.
  apply list_elem_of_lookup in Hid as [i Hi].
  apply lookup_seqZ in Hi. lia.
Qed.

Lemma elem_of_customer_df_id df c :
  c ∈ customer_df df →
  1 ≤ CustomerDim.customer_id c ≤ Z.of_nat (length (customer_df df)).
Proof.
  intros Hc.
  assert (CustomerDim.customer_id c
          ∈ CustomerDim.customer_id <$> customer_df df) as Hid
    by by apply list_elem_of_fmap_2.
  replace (length (customer_df df))
    with (length (CustomerDim.customer_id <$> customer_df df))
    by apply length_fmap.
  rewrite customer_df_ids in Hid |- *. rewrite length_seqZ.
  apply list_elem_of_lookup in Hid as [i Hi].
  apply lookup_seqZ in Hi. lia.
Qed.

Lemma elem_of_product_df_id df p :
  p ∈ product_df df →
  1 ≤ ProductDim.product_id p ≤ Z.of_nat (length (product_df df)).
Proof.
  intros Hp.
  assert (ProductDim.product_id p
          ∈ ProductDim.product_id <$> product_df df) as Hid
    by by apply list_elem_of_fmap_2.
  replace (length (product_df df))
    with (length (ProductDim.product_id <$> product_df df))
    by apply length_fmap.
  rewrite product_df_ids in Hid |- *. rewrite length_seqZ.
  apply list_elem_of_lookup in Hid as [i Hi].
  apply lookup_seqZ in Hi. lia.
Qed.

(** X7. In a load no join misses, missing natural-key cells included:
    the i-th fact row takes over the columns of the i-th row of the
    frame, and its three foreign keys are not null and lie between 1 and
    the number of rows of their dimension table. *)
Theorem fact_rows_complete (df : list Df.row) (i : nat) (f : SalesFact.row) :
  sales_data df !! i = Some f →
  ∃ r b c p,
    df !! i = Some r ∧ carries r f ∧
    SalesFact.branch_id f = Some b ∧
    SalesFact.customer_id f = Some c ∧
    SalesFact.product_id f = Some p ∧
    1 ≤ b ≤ Z.of_nat (length (branch_df df)) ∧
    1 ≤ c ≤ Z.of_nat (length (customer_df df)) ∧
    1 ≤ p ≤ Z.of_nat (length (product_df df)).
Proof.
  intros Hf.
  destruct (Forall2_lookup_r _ _ _ _ _ (sales_data_resolved df) Hf)
    as (r & Hr & b & c & p & Hb & _ & Hc & _ & Hp & _ & ->).
  exists r, (BranchDim.branch_id b), (CustomerDim.customer_id c),
         (ProductDim.product_id p).
  split; [done|]. split; [by repeat split|]. do 3 (split; [done|]).
  split; [by apply elem_of_branch_df_id|].
  split; [by apply elem_of_customer_df_id|by apply elem_of_product_df_id].
Qed.

Lemma length_bind_nonempty {A B} (f : A → list B) (l : list A) :
  (∀ x, f x ≠ []) → (length l ≤ length (l ≫= f))%nat.
Proof.
  intros Hf. induction l as [|x l IH]; [done|].
  rewrite bind_cons, length_app. simpl.
  specialize (Hf x). destruct (f x); [done|]. simpl. lia.
Qed.

(** X8. Whatever the three dimension tables hold, the merges never drop a
    row of the frame: the fact table has at least as many rows. *)
Theorem left_merges_keep_rows (df : list Df.row) (B : list BranchDim.row)
    (C : list CustomerDim.row) (P : list ProductDim.row) :
  (length df ≤ length (sales_data_of df B C P))%nat.
Proof.
  rewrite sales_data_of_rows. apply length_bind_nonempty.
  intros r. apply facts_of_row_nonempty.
Qed.

(** X9. When no natural key occurs twice in any of the three dimension
    tables, the fact table has exactly the rows of the frame, misses
    included. *)
Theorem unique_keys_keep_cardinality (df : list Df.row)
    (B : list BranchDim.row) (C : list CustomerDim.row)
    (P : list ProductDim.row) :
  NoDup (BranchDim.natural_key <$> B) →
  NoDup (CustomerDim.natural_key <$> C) →
  NoDup (ProductDim.natural_key <$> P) →
  length (sales_data_of df B C P) = length df.
Proof.
  intros HB HC HP. rewrite sales_data_of_rows. symmetry.
  apply (Forall2_length (λ _ _, True)), Forall2_bind_singleton.
  intros r _. unfold facts_of_row.
  rewrite (found_NoDup _ _ _ _ HB), (found_NoDup _ _ _ _ HC),
    (found_NoDup _ _ _ _ HP).
  eexists. split; [reflexivity|done].
Qed.

(** ** More on the dimension tables *)
Section numbering_grows.
Context {K R : Type} (build : Z → K → R).

Lemma numbered_app (keys more : list K) :
  zip_with build (range 1 (Z.of_nat (length (keys ++ more)) + 1))
           (keys ++ more)
  = zip_with build (range 1 (Z.of_nat (length keys) + 1)) keys
    ++ zip_with build (seqZ (1 + Z.of_nat (length keys))
                            (Z.of_nat (length more))) more.
Proof.
  rewrite !range_from_1, length_app, Nat2Z.inj_add.
  rewrite seqZ_app by lia.
  apply zip_with_app. rewrite length_seqZ. lia.
Qed.

End numbering_grows.

Lemma branch_df_app df df' : branch_df df `prefix_of` branch_df (df ++ df').
Proof.
  unfold branch_df. rewrite fmap_app, drop_duplicates_app, numbered_app.
  by eexists.
Qed.

Lemma customer_df_app df df' :
  customer_df df `prefix_of` customer_df (df ++ df').
Proof.
  unfold customer_df. rewrite fmap_app, drop_duplicates_app, numbered_app.
  by eexists.
Qed.

Lemma product_df_app df df' :
  product_df df `prefix_of` product_df (df ++ df').
Proof.
  unfold product_df. rewrite fmap_app, drop_duplicates_app, numbered_app.
  by eexists.
Qed.

(** X10. Rows added at the end of the frame never renumber a dimension:
    each dimension table of the frame is the beginning of the dimension
    table of the longer frame, surrogate keys included. *)
Theorem dimensions_grow_by_appending (df df' : list Df.row) :
  branch_df df `prefix_of` branch_df (df ++ df') ∧
  customer_df df `prefix_of` customer_df (df ++ df') ∧
  product_df df `prefix_of` product_df (df ++ df').
Proof.
  split; [apply branch_df_app|].
  split; [apply customer_df_app|apply product_df_app].
Qed.

Lemma drop_duplicates_Permutation {A} `{EqDecision A} (l k : list A) :
  l ≡ₚ k → drop_duplicates l ≡ₚ drop_duplicates k.
Proof.
  intros Hlk. apply NoDup_Permutation; try apply NoDup_drop_duplicates.
  intros x. by rewrite !elem_of_drop_duplicates, Hlk.
Qed.

(** X11. The order of the rows of the frame decides the numbering only:
    two frames with the same rows in any order have dimension tables
    that hold the same natural keys, each once. *)
Theorem dimensions_of_reordered_frame (df df' : list Df.row) :
  df ≡ₚ df' →
  (NoDup ((λ d, (BranchDim.branch d, BranchDim.city d)) <$> branch_df df) ∧
   NoDup ((λ d, (BranchDim.branch d, BranchDim.city d)) <$> branch_df df') ∧
   (λ d, (BranchDim.branch d, BranchDim.city d)) <$> branch_df df
     ≡ₚ (λ d, (BranchDim.branch d, BranchDim.city d)) <$> branch_df df') ∧
  (NoDup ((λ d, (CustomerDim.customer_type d, CustomerDim.gender d))
            <$> customer_df df) ∧
   NoDup ((λ d, (CustomerDim.customer_type d, CustomerDim.gender d))
            <$> customer_df df') ∧
   (λ d, (CustomerDim.customer_type d, CustomerDim.gender d))
     <$> customer_df df
     ≡ₚ (λ d, (CustomerDim.customer_type d, CustomerDim.gender d))
          <$> customer_df df') ∧
  (NoDup ((λ d, (ProductDim.product_line d, ProductDim.unit_price d))
            <$> product_df df) ∧
   NoDup ((λ d, (ProductDim.product_line d, ProductDim.unit_price d))
            <$> product_df df') ∧
   (λ d, (ProductDim.product_line d, ProductDim.unit_price d))
     <$> product_df df
     ≡ₚ (λ d, (ProductDim.product_line d, ProductDim.unit_price d))
          <$> product_df df').
Proof.
  intros Hperm.
  change (λ d, (BranchDim.branch d, BranchDim.city d))
    with BranchDim.natural_key.
  change (λ d, (CustomerDim.customer_type d, CustomerDim.gender d))
    with CustomerDim.natural_key.
  change (λ d, (ProductDim.product_line d, ProductDim.unit_price d))
    with ProductDim.natural_key.
  rewrite !branch_df_keys, !customer_df_keys, !product_df_keys.
  repeat split;
    first [ apply NoDup_drop_duplicates
          | apply drop_duplicates_Permutation; by rewrite Hperm ].
Qed.

Lemma NoDup_fmap_inj_on {A B} (f : A → B) (l : list A) (x y : A) :
  NoDup (f <$> l) → x ∈ l → y ∈ l → f x = f y → x = y.
Proof.
  induction l as [|z l IH]; [by intros _ ?%not_elem_of_nil|].
  rewrite fmap_cons, NoDup_cons, !elem_of_cons.
  intros [Hz Hnd] [->|Hx] [->|Hy] Hf; [done| | |by apply IH].
  - destruct Hz. rewrite Hf. by apply list_elem_of_fmap_2.
  - destruct Hz. rewrite <-Hf. by apply list_elem_of_fmap_2.
Qed.

Lemma elem_of_sales_data df r :
  r ∈ df → ∃ f, f ∈ sales_data df ∧ resolved df r f.
Proof.
  intros [i Hi]%list_elem_of_lookup.
  destruct (Forall2_lookup_l _ _ _ _ _ (sales_data_resolved df) Hi)
    as (f & Hf & Hres).
  exists f. split; [|done]. by eapply list_elem_of_lookup_2.
Qed.

(** X18. No dimension row of a load is an orphan: each row of each of the
    three dimension tables is referenced by the foreign key of some fact
    row. *)
Theorem dimension_rows_referenced (df : list Df.row) :
  (∀ b, b ∈ branch_df df →
        ∃ f, f ∈ sales_data df ∧
             SalesFact.branch_id f = Some (BranchDim.branch_id b)) ∧
  (∀ c, c ∈ customer_df df →
        ∃ f, f ∈ sales_data df ∧
             SalesFact.customer_id f = Some (CustomerDim.customer_id c)) ∧
  (∀ p, p ∈ product_df df →
        ∃ f, f ∈ sales_data df ∧
             SalesFact.product_id f = Some (ProductDim.product_id p)).
Proof.
  split; [|split].
  - intros b Hb.
    assert (BranchDim.natural_key b ∈ branch_key <$> df) as Hk.
    { rewrite <-elem_of_drop_duplicates, <-branch_df_keys.
      by apply list_elem_of_fmap_2. }
    apply list_elem_of_fmap in Hk as (r & Hk & Hr).
    destruct (elem_of_sales_data df r Hr)
      as (f & Hf & b' & c' & p' & Hb' & Hkb' & _ & _ & _ & _ & ->).
    exists (fact_columns r (Some (BranchDim.branch_id b'))
              (Some (CustomerDim.customer_id c'))
              (Some (ProductDim.product_id p'))).
    split; [done|]. simpl. do 2 f_equal.
    eapply (NoDup_fmap_inj_on BranchDim.natural_key); try done.
    + rewrite branch_df_keys. apply NoDup_drop_duplicates.
    + congruence.
  - intros c Hc.
    assert (CustomerDim.natural_key c ∈ customer_key <$> df) as Hk.
    { rewrite <-elem_of_drop_duplicates, <-customer_df_keys.
      by apply list_elem_of_fmap_2. }
    apply list_elem_of_fmap in Hk as (r & Hk & Hr).
    destruct (elem_of_sales_data df r Hr)
      as (f & Hf & b' & c' & p' & _ & _ & Hc' & Hkc' & _ & _ & ->).
    exists (fact_columns r (Some (BranchDim.branch_id b'))
              (Some (CustomerDim.customer_id c'))
              (Some (ProductDim.product_id p'))).
    split; [done|]. simpl. do 2 f_equal.
    eapply (NoDup_fmap_inj_on CustomerDim.natural_key); try done.
    + rewrite customer_df_keys. apply NoDup_drop_duplicates.
    + congruence.
  - intros p Hp.
    assert (ProductDim.natural_key p ∈ product_key <$> df) as Hk.
    { rewrite <-elem_of_drop_duplicates, <-product_df_keys.
      by apply list_elem_of_fmap_2. }
    apply list_elem_of_fmap in Hk as (r & Hk & Hr).
    destruct (elem_of_sales_data df r Hr)
      as (f & Hf & b' & c' & p' & _ & _ & _ & _ & Hp' & Hkp' & ->).
    exists (fact_columns r (Some (BranchDim.branch_id b'))
              (Some (CustomerDim.customer_id c'))
              (Some (ProductDim.product_id p'))).
    split; [done|]. simpl. do 2 f_equal.
    eapply (NoDup_fmap_inj_on ProductDim.natural_key); try done.
    + rewrite product_df_keys. apply NoDup_drop_duplicates.
    + congruence.
Qed.

(** ** From the loaded tables back to the rows *)

Lemma filter_unique_key {R K} `{EqDecision K} (rkey : R → K)
    (right : list R) (r : R) :
  NoDup (rkey <$> right) → r ∈ right →
  filter (λ r', rkey r' = rkey r) right = [r].
Proof.
  induction right as [|x right IH]; [by intros _ ?%not_elem_of_nil|].
  rewrite fmap_cons, NoDup_cons, elem_of_cons. intros [Hx Hnd] [->|Hr].
  - rewrite filter_cons_True by done. f_equal.
    apply filter_none. intros r' Hr' Heq. apply Hx. rewrite <-Heq.
    by apply list_elem_of_fmap_2.
  - rewrite filter_cons_False; [by apply IH|].
    intros Heq. apply Hx. rewrite Heq. by apply list_elem_of_fmap_2.
Qed.

Lemma NoDup_branch_df_ids df : NoDup (BranchDim.branch_id <$> branch_df df).
Proof. rewrite branch_df_ids. apply NoDup_seqZ. Qed.

Lemma NoDup_product_df_ids df : NoDup (ProductDim.product_id <$> product_df df).
Proof. rewrite product_df_ids. apply NoDup_seqZ. Qed.

Lemma Forall2_bind_singleton_r {A B C} (P : A → B → Prop) (Q : A → C → Prop)
    (g : B → list C) (l : list A) (k : list B) :
  Forall2 P l k →
  (∀ x y, P x y → ∃ z, g y = [z] ∧ Q x z) →
  Forall2 Q l (k ≫= g).
Proof.
  intros Hlk Hg. induction Hlk as [|x y l k Hxy _ IH]; [constructor|].
  destruct (Hg x y Hxy) as (z & Hz & HQ).
  rewrite bind_cons, Hz. by constructor.
Qed.

Lemma Forall2_fmap_eq {A B C} (f : A → C) (g : B → C)
    (l : list A) (k : list B) :
  Forall2 (λ x y, f x = g y) l k → f <$> l = g <$> k.
Proof.
  induction 1 as [|x y l k Hxy _ IH]; [done|].
  by rewrite !fmap_cons, Hxy, IH.
Qed.

Lemma fmap_bind_singleton {B C} (h : C → B) (g : B → list C) (k : list B) :
  (∀ y, y ∈ k → ∃ z, g y = [z] ∧ h z = y) → h <$> (k ≫= g) = k.
Proof.
  induction k as [|y k IH]; intros Hg; [done|].
  destruct (Hg y) as (z & Hz & Hy); [left|].
  rewrite bind_cons, Hz. simpl. rewrite Hy. f_equal.
  apply IH. intros y' Hy'. apply Hg. by right.
Qed.

(** The joins of one fact row of a load. *)
Lemma joins_of_resolved df r f :
  resolved df r f →
  ∃ j,
    (b ← filter (λ b, SalesFact.branch_id f = Some (BranchDim.branch_id b))
                (branch_df df);
     p ← filter (λ p, SalesFact.product_id f = Some (ProductDim.product_id p))
                (product_df df);
     [(f, b, p)]) = [j] ∧
    rejoined df r j ∧ j.1.1 = f.
Proof.
  intros (b & c & p & Hb & Hkb & Hc & Hkc & Hp & Hkp & ->). simpl.
  rewrite (list_filter_iff _ (λ b', BranchDim.branch_id b'
                                    = BranchDim.branch_id b))
    by (intros b'; split; [by intros [= <-]|by intros ->]).
  rewrite (filter_unique_key BranchDim.branch_id)
    by (apply NoDup_branch_df_ids || done).
  rewrite bind_singleton.
  rewrite (list_filter_iff _ (λ p', ProductDim.product_id p'
                                    = ProductDim.product_id p))
    by (intros p'; split; [by intros [= <-]|by intros ->]).
  rewrite (filter_unique_key ProductDim.product_id)
    by (apply NoDup_product_df_ids || done).
  rewrite bind_singleton. eexists. split; [done|]. split; [|done].
  by exists b, c, p.
Qed.

Lemma from_joins_loaded df :
  Forall2 (rejoined df) df
    (from_joins (sales_data df) (branch_df df) (product_df df)).
Proof.
  unfold from_joins.
  eapply Forall2_bind_singleton_r; [apply sales_data_resolved|].
  intros r f Hf. destruct (joins_of_resolved df r f Hf) as (j & Hj & Hr & _).
  eauto.
Qed.

Lemma from_joins_loaded_facts df :
  (λ j : joined, j.1.1)
    <$> from_joins (sales_data df) (branch_df df) (product_df df)
  = sales_data df.
Proof.
  unfold from_joins. apply fmap_bind_singleton.
  intros f [i Hi]%list_elem_of_lookup.
  destruct (Forall2_lookup_r _ _ _ _ _ (sales_data_resolved df) Hi)
    as (r & _ & Hf).
  destruct (joins_of_resolved df r f Hf) as (j & Hj & _ & Hjf). eauto.
Qed.

(** X12. Joining the loaded fact table back to the loaded branch and
    product tables, as the report does, gives one joined row per row of
    the frame, in order: its fact row is that row's fact row, and it
    carries the row's branch, city, product line, unit price and sales. *)
Theorem star_schema_round_trip (df : list Df.row) :
  let rows := from_joins (sales_data df) (branch_df df) (product_df df) in
  (λ j : joined, j.1.1) <$> rows = sales_data df ∧
  (λ j : joined, (BranchDim.branch j.1.2, BranchDim.city j.1.2,
                  ProductDim.product_line j.2, ProductDim.unit_price j.2,
                  SalesFact.sales j.1.1)) <$> rows
  = (λ r, (Csv.branch (Df.cols r), Csv.city (Df.cols r),
           Csv.product_line (Df.cols r), Csv.unit_price (Df.cols r),
           Csv.sales (Df.cols r))) <$> df.
Proof.
  intros rows. split; [apply from_joins_loaded_facts|].
  symmetry. apply Forall2_fmap_eq.
  eapply Forall2_impl; [apply from_joins_loaded|].
  intros r j (b & c & p & -> & Hb & Hp). simpl.
  injection Hb as -> ->. injection Hp as -> ->. done.
Qed.

(** ** The report of a load, on the extract *)

Lemma keyed_fmap_eq {A B K V} (ka : A → K) (va : A → V) (kb : B → K)
    (vb : B → V) (l : list A) (k : list B) :
  (λ x, (ka x, va x)) <$> l = (λ y, (kb y, vb y)) <$> k →
  ka <$> l = kb <$> k.
Proof.
  intros Heq.
  apply (f_equal (fmap (M:=list) fst)) in Heq.
  by rewrite <-!list_fmap_compose in Heq.
Qed.

Lemma keyed_filter_eq {A B K V} `{EqDecision K} (ka : A → K) (va : A → V)
    (kb : B → K) (vb : B → V) (key : K) (l : list A) (k : list B) :
  (λ x, (ka x, va x)) <$> l = (λ y, (kb y, vb y)) <$> k →
  va <$> filter (λ x, ka x = key) l = vb <$> filter (λ y, kb y = key) k.
Proof.
  revert k. induction l as [|x l IH]; intros [|y k]; try done.
  rewrite !fmap_cons. intros [= Hk Hv Heq].
  rewrite !filter_cons, Hk.
  destruct (decide (kb y = key)); rewrite ?fmap_cons, ?Hv; by rewrite (IH k).
Qed.

Lemma loaded_rows_of_csv (strptime : string → option Timestamp) csv df :
  to_datetime strptime csv = Some df →
  (λ j : joined, (branch_and_line j, SalesFact.sales j.1.1))
    <$> from_joins (sales_data df) (branch_df df) (product_df df)
  = (λ r, (csv_key r, Csv.sales r)) <$> csv.
Proof.
  intros Hdf%to_datetime_rows. symmetry. apply Forall2_fmap_eq.
  eapply Forall2_trans; [|exact Hdf|apply from_joins_loaded].
  intros r x j <- (b & c & p & -> & Hb & Hp). simpl.
  unfold branch_and_line, csv_key. simpl.
  injection Hb as -> _. injection Hp as -> _. done.
Qed.

Section report_on_extract.
Variable strptime : string → option Timestamp.
Variables (csv : list Csv.row) (df : list Df.row).
Hypothesis Hdf : to_datetime strptime csv = Some df.

Let rows := from_joins (sales_data df) (branch_df df) (product_df df).

Lemma loaded_keys : branch_and_line <$> rows = csv_key <$> csv.
Proof.
  eapply (keyed_fmap_eq _ (λ j : joined, SalesFact.sales j.1.1) _ Csv.sales).
  by eapply loaded_rows_of_csv.
Qed.

Lemma loaded_in_group b p : in_group rows b p ↔ csv_in_group csv b p.
Proof. unfold in_group, csv_in_group. by rewrite loaded_keys. Qed.

Lemma loaded_group_sum b p : group_sum rows b p = csv_sum csv b p.
Proof.
  unfold group_sum, csv_sum. f_equal.
  apply keyed_filter_eq. by eapply loaded_rows_of_csv.
Qed.

Lemma loaded_group_total b p : group_total rows b p = csv_total csv b p.
Proof. unfold group_total, csv_total. by rewrite loaded_group_sum. Qed.

Lemma loaded_categories b : location_categories rows b = csv_categories csv b.
Proof. unfold location_categories, csv_categories. by rewrite loaded_keys. Qed.

Lemma loaded_totals b : location_totals rows b = csv_totals csv b.
Proof.
  unfold location_totals, csv_totals, set_map. rewrite loaded_categories.
  f_equal. apply list_fmap_ext. intros _ p _. apply loaded_group_total.
Qed.

Lemma loaded_dense_rank b t : dense_rank_of rows b t = csv_dense_rank csv b t.
Proof. unfold dense_rank_of, csv_dense_rank. by rewrite loaded_totals. Qed.

End report_on_extract.

(** X13. When the report script returns after a successful load, it
    has left the store as it was, and its rows are the top-3 ranking of
    the extract itself: one row for each branch and product line of the
    extract whose total ([ROUND(., 2)] of the [SUM] of the sales of its
    rows) has dense rank at most 3 among the totals of that branch, by
    branch ascending and then rank descending. When [SUM] and [ROUND] are
    exact on whole numbers and the sales of the rows of a group are whole
    numbers of moderate size, the row of the group carries the sum of
    those that are present. *)
Theorem report_of_load (strptime : string → option Timestamp)
    (csv : list Csv.row) (conn conn' conn'' : Store)
    (report : list Report.row) :
  main strptime csv conn = (Return (), conn') →
  generate_report conn' = (Return report, conn'') →
  conn'' = conn' ∧
  NoDup ((λ r, (Report.branch r, Report.product_line r)) <$> report) ∧
  StronglySorted (csv_report_order csv) report ∧
  (∀ b p t, Report.Build b p t ∈ report ↔
            csv_in_group csv b p ∧ t = csv_total csv b p ∧
            (csv_dense_rank csv b t ≤ 3)%nat) ∧
  (exact_on_whole_numbers →
   ∀ b p t (zs : list integer),
     Report.Build b p t ∈ report →
     Csv.sales <$> filter (λ r, csv_key r = (b, p)) csv = whole <$> zs →
     moderate zs →
     t = whole (whole_sum zs)).
Proof.
  intros (df & Hdf & ->)%main_inv [= <- <-].
  split; [done|]. split; [apply NoDup_top3_query|]. split; [|split].
  - rewrite <-(list_fmap_id (top3_query _ _ _)).
    eapply StronglySorted_fmap_elem_of; [|apply top3_query_sorted].
    intros x y _ _. unfold report_order, csv_report_order. simpl.
    by rewrite !(loaded_dense_rank strptime csv df Hdf).
  - intros b p t. rewrite elem_of_top3_query.
    by rewrite (loaded_in_group strptime csv df Hdf),
      (loaded_group_total strptime csv df Hdf),
      (loaded_dense_rank strptime csv df Hdf).
  - intros [HSUM HROUND] b p t zs (_ & -> & _)%elem_of_top3_query Hzs Hmod.
    rewrite (loaded_group_total strptime csv df Hdf).
    unfold csv_total, csv_sum.
    rewrite Hzs, (HSUM zs Hmod). by apply HROUND, moderate_whole_sum.
Qed.

(** ** More on the ranking *)

Lemma rank_among_pos vals t : (1 ≤ rank_among vals t)%nat.
Proof. unfold rank_among. lia. Qed.

Lemma rank_among_1_top (vals : gset real) (t : real) :
  rank_among vals t = 1%nat → ∀ t', t' ∈ vals → real_le t' t.
Proof.
  unfold rank_among. intros Hrank t' Ht'.
  destruct (real_le_or_lt t' t) as [|Hlt]; [done|].
  assert (t' ∈ filter (real_lt t) vals) as Hin by by apply elem_of_filter.
  assert (size (filter (real_lt t) vals) = 0%nat) as Hsize by lia.
  apply size_empty_iff in Hsize. by apply Hsize in Hin.
Qed.

Lemma rank_among_le_inv (vals : gset real) (t1 t2 : real) :
  t1 ∈ vals →
  (rank_among vals t2 ≤ rank_among vals t1)%nat → real_le t1 t2.
Proof.
  intros Ht1 Hrank. destruct (real_le_or_lt t1 t2) as [|Hlt]; [done|].
  pose proof (rank_among_lt vals t2 t1 Ht1 Hlt). lia.
Qed.

(** X14. Every branch that has a joined row is in the report, with a
    product line of rank 1 whose total no product line of that branch
    exceeds. *)
Theorem every_branch_reported (sales_fact : list SalesFact.row)
    (branch_dim : list BranchDim.row) (product_dim : list ProductDim.row)
    (b p : text) :
  let rows := from_joins sales_fact branch_dim product_dim in
  in_group rows b p →
  ∃ p',
    Report.Build b p' (group_total rows b p')
      ∈ top3_query sales_fact branch_dim product_dim ∧
    dense_rank_of rows b (group_total rows b p') = 1%nat ∧
    ∀ p'', in_group rows b p'' →
           real_le (group_total rows b p'') (group_total rows b p').
Proof.
  intros rows Hg.
  destruct (CTE_no_gap sales_fact branch_dim product_dim
              (Cte.Build b p (group_total rows b p)
                 (dense_rank_of rows b (group_total rows b p))) 1)
    as ([b' p' t' k'] & (Hg' & Ht' & Hr')%elem_of_CTE & Hb' & Hk').
  { by apply elem_of_CTE. }
  { simpl. split; [done|apply rank_among_pos]. }
  fold rows in Hg', Ht', Hr'. simpl in *. subst b' t'.
  assert (dense_rank_of rows b (group_total rows b p') = 1%nat) as Hone
    by congruence.
  exists p'. split; [|split; [done|]].
  - apply elem_of_top3_query. fold rows. split; [done|]. split; [done|]. lia.
  - intros p'' Hg''. apply (rank_among_1_top _ _ Hone).
    apply elem_of_location_totals. eauto.
Qed.

(** X15. On its visible columns the report is ordered by branch ascending
    and, within a branch, by total ascending (a missing total first). *)
Theorem report_visible_order (sales_fact : list SalesFact.row)
    (branch_dim : list BranchDim.row) (product_dim : list ProductDim.row) :
  StronglySorted visible_order
    (top3_query sales_fact branch_dim product_dim).
Proof.
  rewrite <-(list_fmap_id (top3_query _ _ _)).
  eapply StronglySorted_fmap_elem_of; [|apply top3_query_sorted].
  intros [b1 p1 t1] [b2 p2 t2] (Hg1 & Ht1 & _)%elem_of_top3_query
    (Hg2 & Ht2 & _)%elem_of_top3_query.
  unfold report_order, visible_order. simpl.
  intros [Hlt|[-> Hrank]]; [by left|right]. split; [done|].
  eapply rank_among_le_inv; [|exact Hrank].
  apply elem_of_location_totals. eauto.
Qed.

(** X17. The rows of one branch in the report show at most three distinct
    totals. *)
Theorem at_most_three_totals (sales_fact : list SalesFact.row)
    (branch_dim : list BranchDim.row) (product_dim : list ProductDim.row)
    (b : text) :
  (length (drop_duplicates
             (Report.total_sales
                <$> filter (λ r, Report.branch r = b)
                      (top3_query sales_fact branch_dim product_dim)))
   ≤ 3)%nat.
Proof.
  set (rows := from_joins sales_fact branch_dim product_dim).
  set (totals := drop_duplicates _).
  assert (∀ t, t ∈ totals →
               t ∈ location_totals rows b ∧
               (dense_rank_of rows b t ≤ 3)%nat) as Htotals.
  { intros t. unfold totals.
    rewrite elem_of_drop_duplicates, list_elem_of_fmap.
    setoid_rewrite list_elem_of_filter.
    intros ([b' p' t'] & -> & <- & (Hg & Ht & Hr)%elem_of_top3_query).
    simpl. split; [|done]. apply elem_of_location_totals. eauto. }
  rewrite <-(length_fmap (dense_rank_of rows b)).
  change 3%nat with (length [1; 2; 3]%nat).
  apply submseteq_length, NoDup_submseteq.
  - apply NoDup_fmap_2_strong; [|apply NoDup_drop_duplicates].
    intros t1 t2 [Ht1 _]%Htotals [Ht2 _]%Htotals. by apply rank_among_inj.
  - intros k (t & -> & [_ Hk]%Htotals)%list_elem_of_fmap.
    pose proof (rank_among_pos (location_totals rows b) t) as Hpos.
    unfold dense_rank_of in *.
    destruct (rank_among _ t) as [|[|[|[|?]]]]; [lia| | | |lia];
      repeat first [apply list_elem_of_here | apply list_elem_of_further].
Qed.

Lemma group_no_gap sales_fact branch_dim product_dim b p k :
  let rows := from_joins sales_fact branch_dim product_dim in
  in_group rows b p →
  (1 ≤ k ≤ dense_rank_of rows b (group_total rows b p))%nat →
  ∃ p', in_group rows b p' ∧ dense_rank_of rows b (group_total rows b p') = k.
Proof.
  intros rows Hg Hk.
  destruct (CTE_no_gap sales_fact branch_dim product_dim
              (Cte.Build b p (group_total rows b p)
                 (dense_rank_of rows b (group_total rows b p))) k)
    as ([b' p' t' k'] & (Hg' & Ht' & Hr')%elem_of_CTE & Hb' & Hk');
    [by apply elem_of_CTE|done|].
  fold rows in Hg', Ht', Hr'. simpl in *. subst b' t'.
  exists p'. split; [done|congruence].
Qed.

Lemma reported_lines sales_fact branch_dim product_dim b (l : list text) :
  let rows := from_joins sales_fact branch_dim product_dim in
  NoDup l →
  (∀ p, p ∈ l → in_group rows b p ∧
                (dense_rank_of rows b (group_total rows b p) ≤ 3)%nat) →
  (length l
   ≤ length (filter (λ r, Report.branch r = b)
               (top3_query sales_fact branch_dim product_dim)))%nat.
Proof.
  intros rows Hnd Hl.
  rewrite <-(length_fmap (λ p, Report.Build b p (group_total rows b p)) l).
  apply submseteq_length, NoDup_submseteq.
  - apply NoDup_fmap_2_strong; [|done]. by intros p1 p2 _ _ [= ->].
  - intros r (p & -> & Hp)%list_elem_of_fmap.
    destruct (Hl p Hp) as [Hg Hr].
    apply list_elem_of_filter. split; [done|].
    apply elem_of_top3_query. by fold rows.
Qed.

(** X19. A branch with at least three product lines has at least three
    rows in the report. *)
Theorem at_least_three_rows (sales_fact : list SalesFact.row)
    (branch_dim : list BranchDim.row) (product_dim : list ProductDim.row)
    (b : text) :
  let rows := from_joins sales_fact branch_dim product_dim in
  (3 ≤ size (location_categories rows b))%nat →
  (3 ≤ length (filter (λ r, Report.branch r = b)
                 (top3_query sales_fact branch_dim product_dim)))%nat.
Proof.
  intros rows Hsize.
  destruct (decide (Exists
              (λ p, (3 ≤ dense_rank_of rows b (group_total rows b p))%nat)
              (elements (location_categories rows b)))) as [Hex|Hall].
  - apply Exists_exists in Hex as (p & Hp & Hrank).
    apply elem_of_elements, elem_of_location_categories in Hp.
    destruct (group_no_gap sales_fact branch_dim product_dim b p 1 Hp)
      as (p1 & Hg1 & Hr1); [fold rows; lia|].
    destruct (group_no_gap sales_fact branch_dim product_dim b p 2 Hp)
      as (p2 & Hg2 & Hr2); [fold rows; lia|].
    destruct (group_no_gap sales_fact branch_dim product_dim b p 3 Hp)
      as (p3 & Hg3 & Hr3); [fold rows; lia|].
    fold rows in Hg1, Hr1, Hg2, Hr2, Hg3, Hr3.
    change 3%nat with (length [p1; p2; p3]) at 1.
    apply reported_lines.
    + repeat constructor; rewrite ?elem_of_cons, ?elem_of_nil;
        intros Heq; repeat destruct Heq as [Heq|Heq]; try done;
        subst; congruence.
    + intros q. rewrite !elem_of_cons, elem_of_nil. fold rows.
      intros [->|[->|[->|[]]]]; split; try done; lia.
  - apply not_Exists_Forall in Hall; [|apply _].
    rewrite Forall_forall in Hall.
    etrans; [exact Hsize|]. unfold size, set_size. simpl.
    apply reported_lines; [apply NoDup_elements|].
    intros q Hq. fold rows. specialize (Hall q Hq). simpl in Hall.
    apply elem_of_elements, elem_of_location_categories in Hq.
    split; [done|lia].
Qed.

(** ** Sorted lists *)

Lemma StronglySorted_lookup_lt {A} (R : relation A) (l : list A)
    (i j : nat) (x y : A) :
  StronglySorted R l → l !! i = Some x → l !! j = Some y → (i < j)%nat →
  R x y.
Proof.
  intros Hsorted. revert i j.
  induction Hsorted as [|z l Hl IH Hz]; intros i j Hi Hj Hij; [done|].
  destruct i as [|i], j as [|j]; try lia; simpl in *.
  - injection Hi as ->. rewrite Forall_forall in Hz. apply Hz.
    by eapply list_elem_of_lookup_2.
  - eapply IH; [done..|lia].
Qed.

(** In a sorted list an element stands before every other element that
    may not stand before it. *)
Lemma sorted_before {A} (R : relation A) (l : list A) (i j : nat) (x y : A) :
  StronglySorted R l → l !! i = Some x → l !! j = Some y →
  x ≠ y → ¬ R y x → (i < j)%nat.
Proof.
  intros Hsorted Hi Hj Hne HR.
  destruct (decide (i < j)%nat) as [|Hij]; [done|].
  destruct (decide (i = j)) as [->|Hne']; [congruence|].
  destruct HR. eapply (StronglySorted_lookup_lt R l j i); [done..|lia].
Qed.

End report.

(** * The properties on the sample data *)

Ltac by_evaluation := apply (bool_decide_unpack _); vm_compute; exact I.

(** The arithmetic of the examples is exact on whole numbers. *)
Lemma Q2Qc_inject_Z_plus (a b : Z) :
  (Q2Qc (inject_Z a) + Q2Qc (inject_Z b))%Qc = Q2Qc (inject_Z (a + b)).
Proof.
  apply Qc_is_canon. simpl. rewrite !Qred_correct, inject_Z_plus. reflexivity.
Qed.

Lemma foldl_Qcplus_whole (a : Z) (vs : list Z) :
  foldl Qcplus (Q2Qc (inject_Z a)) ((λ z, Q2Qc (inject_Z z)) <$> vs)
  = Q2Qc (inject_Z (a + foldr Z.add 0 vs)).
Proof.
  revert a. induction vs as [|v vs IH]; intros a; simpl.
  - by rewrite Z.add_0_r.
  - rewrite Q2Qc_inject_Z_plus, IH. do 2 f_equal. lia.
Qed.

Lemma omap_whole (zs : list integer) :
  omap id (whole <$> zs) = (λ z, Q2Qc (inject_Z z)) <$> omap id zs.
Proof.
  induction zs as [|[z|] zs IH]; csimpl; [done| |done].
  by rewrite IH.
Qed.

Lemma ex_SUM_whole (zs : list integer) :
  ex_SUM (whole <$> zs) = whole (whole_sum zs).
Proof.
  unfold ex_SUM, whole_sum. rewrite omap_whole.
  destruct (omap id zs) as [|v vs]; [done|].
  change (Q2Qc 0) with (Q2Qc (inject_Z 0)).
  generalize (foldl_Qcplus_whole 0 (v :: vs)). rewrite fmap_cons.
  intros ->. done.
Qed.

Lemma this_whole (z : Z) : this (Q2Qc (inject_Z z)) = inject_Z z.
Proof. simpl. apply Qred_identity. simpl. apply Z.gcd_1_r. Qed.

Lemma round_half_away_whole (z : Z) :
  round_half_away (Q2Qc (inject_Z z)) 2 = Q2Qc (inject_Z z).
Proof.
  unfold round_half_away. rewrite this_whole.
  apply Q2Qc_eq_iff.
  change (inject_Z (10 ^ Z.of_nat 2)) with (100 # 1)%Q.
  assert (Qfloor (Qabs (inject_Z z) * (100 # 1) + (1 # 2))%Q = Z.abs z * 100)
    as ->.
  { unfold Qfloor, inject_Z, Qabs, Qmult, Qplus. simpl.
    rewrite Z.mul_1_r. symmetry. apply (Z.div_unique _ _ _ 1); lia. }
  unfold Qeq, Qdiv, Qmult, Qinv, inject_Z. simpl.
  destruct z; simpl; lia.
Qed.

Lemma ex_ROUND_whole (z : integer) : ex_ROUND (whole z) 2 = whole z.
Proof.
  destruct z as [z|]; simpl; [|done]. by rewrite round_half_away_whole.
Qed.

Lemma ex_exact_on_whole_numbers : exact_on_whole_numbers ex_SUM ex_ROUND.
Proof.
  split; [intros zs _; apply ex_SUM_whole|intros z _; apply ex_ROUND_whole].
Qed.

(** In the ranking example the report holds the product lines X and Y
    (tied at rank 1), Z (rank 2) and W (rank 3) of branch A and the
    product line X of branch B; V, of rank 4, is left out; W comes
    before Z, Z before X, and the rows of branch A before the row of
    branch B. *)
Lemma report_ranking_witness :
  let report :=
    top3_query ex_SUM ex_ROUND ex_sales_fact ex_branch_dim ex_product_dim in
  let AX := Report.Build (Some "A") (Some "X") (dec 300 1) in
  let AY := Report.Build (Some "A") (Some "Y") (dec 300 1) in
  let AZ := Report.Build (Some "A") (Some "Z") (dec 100 1) in
  let AW := Report.Build (Some "A") (Some "W") (dec 50 1) in
  let BX := Report.Build (Some "B") (Some "X") (dec 200 1) in
  (AX ∈ report ∧ AY ∈ report ∧ AZ ∈ report ∧ AW ∈ report ∧ BX ∈ report) ∧
  (∀ t, Report.Build (Some "A") (Some "V") t ∉ report) ∧
  (∀ i j, report !! i = Some AW → report !! j = Some AZ → (i < j)%nat) ∧
  (∀ i j, report !! i = Some AZ → report !! j = Some AX → (i < j)%nat) ∧
  (∀ i j, report !! i = Some AY → report !! j = Some BX → (i < j)%nat) ∧
  (∀ t, Report.Build (Some "A") (Some "X") t ∈ report →
        t = whole (whole_sum [Some 100; Some 200])).
Proof.
  intros report AX AY AZ AW BX.
  destruct (report_ranking ex_SUM ex_ROUND ex_sales_fact ex_branch_dim
              ex_product_dim)
    as (Hin & _ & Hsorted & _ & Htie & _ & Hsum).
  fold report in Hin, Hsorted, Htie, Hsum.
  assert (AX ∈ report) as HAX.
  { apply Hin. split; [unfold in_group; by_evaluation|].
    split; by_evaluation. }
  split; [|split; [|split; [|split; [|split]]]].
  - split; [done|]. split; [|split; [|split]].
    + apply (Htie _ (Some "X")); [done|unfold in_group; by_evaluation|].
      by_evaluation.
    + apply Hin. split; [unfold in_group; by_evaluation|].
      split; by_evaluation.
    + apply Hin. split; [unfold in_group; by_evaluation|].
      split; by_evaluation.
    + apply Hin. split; [unfold in_group; by_evaluation|].
      split; by_evaluation.
  - intros t (_ & -> & Hrank)%Hin. revert Hrank. by_evaluation.
  - intros i j Hi Hj.
    apply (sorted_before _ _ _ _ _ _ Hsorted Hi Hj); [done|].
    unfold report_order. by_evaluation.
  - intros i j Hi Hj.
    apply (sorted_before _ _ _ _ _ _ Hsorted Hi Hj); [done|].
    unfold report_order. by_evaluation.
  - intros i j Hi Hj.
    apply (sorted_before _ _ _ _ _ _ Hsorted Hi Hj); [done|].
    unfold report_order. by_evaluation.
  - intros t Ht.
    apply (Hsum ex_exact_on_whole_numbers (Some "A") (Some "X") t
             [Some 100; Some 200] Ht); by_evaluation.
Defined.

(** The four sample rows hold two customer segments, member and normal,
    both female: the customer table has two rows, numbered 1 and 2. *)
Lemma dimension_uniqueness_witness :
  size (list_to_set (C:=gset (text * text))
          ((λ r, (Csv.customer_type (Df.cols r), Csv.gender (Df.cols r)))
             <$> ex_df)) = 2%nat ∧
  CustomerDim.customer_id <$> customer_df ex_df = [1; 2] ∧
  (∀ k, k ∈ (λ d, (CustomerDim.customer_type d, CustomerDim.gender d))
              <$> customer_df ex_df
        ↔ k ∈ [(Some "Member", Some "Female"); (Some "Normal", Some "Female");
               (Some "Normal", Some "Female"); (Some "Member", Some "Female")]).
Proof.
  assert (size (list_to_set (C:=gset (text * text))
                  ((λ r, (Csv.customer_type (Df.cols r),
                          Csv.gender (Df.cols r))) <$> ex_df)) = 2%nat)
    as Hsize by (vm_compute; reflexivity).
  split; [exact Hsize|].
  destruct (dimension_uniqueness ex_df) as (_ & (_ & Hids & Hkeys) & _).
  split; [|exact Hkeys].
  rewrite Hids, Hsize. reflexivity.
Defined.

(** The third sample row is of branch B in Mandalay, of a normal female
    customer, and of the product line health and beauty at 74.69; the
    keys 2, 2 and 1 of its fact row are those of the dimension rows that
    carry these values. *)
Lemma join_correctness_witness :
  sales_data ex_df !! 2%nat = Some ex_fact_row3 ∧
  (∀ d, d ∈ branch_df ex_df → BranchDim.branch_id d = 2 →
        BranchDim.branch d = Some "B" ∧ BranchDim.city d = Some "Mandalay") ∧
  (∀ d, d ∈ customer_df ex_df → CustomerDim.customer_id d = 2 →
        CustomerDim.customer_type d = Some "Normal" ∧
        CustomerDim.gender d = Some "Female") ∧
  (∀ d, d ∈ product_df ex_df → ProductDim.product_id d = 1 →
        ProductDim.product_line d = Some "Health and beauty" ∧
        ProductDim.unit_price d = dec 7469 100).
Proof.
  assert (sales_data ex_df !! 2%nat = Some ex_fact_row3) as Hf
    by reflexivity.
  split; [exact Hf|].
  destruct (join_correctness ex_df 2 _ Hf) as (r & Hr & Hb & Hc & Hp).
  injection Hr as <-.
  split; [exact (proj2 (Hb 2 eq_refl))|].
  split; [exact (proj2 (Hc 2 eq_refl))|exact (proj2 (Hp 1 eq_refl))].
Defined.

(** The third sample row against a branch table that holds branch A
    only: its fact row has no branch key and the customer and product
    keys 2 and 1 of the full load. The second sample row against a
    product table without its product line: its fact row has the branch
    and customer keys 1 and 2 of the full load and no product key. *)
Lemma join_miss_witness :
  let r3 := Df.Build ex_row3 (Some (MkTimestamp 2019 1 5 13 8 0)) in
  let r2 := Df.Build ex_row2 (Some (MkTimestamp 2019 3 8 10 29 0)) in
  let B := [BranchDim.Build 1 (Some "A") (Some "Yangon")] in
  let P := [ProductDim.Build 1 (Some "Health and beauty") (dec 7469 100)] in
  ((Csv.branch (Df.cols r3), Csv.city (Df.cols r3))
     ∉ (λ d, (BranchDim.branch d, BranchDim.city d)) <$> B) ∧
  ((λ f, (SalesFact.branch_id f, SalesFact.customer_id f,
          SalesFact.product_id f))
     <$> sales_data_of [r3] B (customer_df ex_df) (product_df ex_df)
   = [(None, Some 2, Some 1)]) ∧
  ((Csv.product_line (Df.cols r2), Csv.unit_price (Df.cols r2))
     ∉ (λ d, (ProductDim.product_line d, ProductDim.unit_price d)) <$> P) ∧
  ((λ f, (SalesFact.branch_id f, SalesFact.customer_id f,
          SalesFact.product_id f))
     <$> sales_data_of [r2] (branch_df ex_df) (customer_df ex_df) P
   = [(Some 1, Some 2, None)]).
Proof.
  intros r3 r2 B P.
  assert ((Csv.branch (Df.cols r3), Csv.city (Df.cols r3))
            ∉ (λ d, (BranchDim.branch d, BranchDim.city d)) <$> B) as HB
    by by_evaluation.
  assert ((Csv.product_line (Df.cols r2), Csv.unit_price (Df.cols r2))
            ∉ (λ d, (ProductDim.product_line d, ProductDim.unit_price d))
                <$> P) as HP
    by by_evaluation.
  split; [exact HB|]. split; [|split; [exact HP|]].
  - destruct (join_miss [] r3 [] B (customer_df ex_df) (product_df ex_df))
      as (_ & _ & Hmiss & _).
    rewrite (Hmiss HB). vm_compute. reflexivity.
  - destruct (join_miss [] r2 [] (branch_df ex_df) (customer_df ex_df) P)
      as (_ & _ & _ & _ & Hmiss).
    rewrite (Hmiss HP). vm_compute. reflexivity.
Defined.

Lemma parse_failure_aborts_before_write_witness :
  ex_bad_row ∈ ex_csv ++ [ex_bad_row] ∧
  ex_strptime ("2019-02-08" +:+ " " +:+ "10:37") = None ∧
  main ex_strptime (ex_csv ++ [ex_bad_row]) ex_loaded_store
  = (Raise ValueError, ex_loaded_store).
Proof.
  assert (ex_bad_row ∈ ex_csv ++ [ex_bad_row]) as Hr.
  { apply elem_of_app. right. apply list_elem_of_here. }
  split; [done|]. split; [reflexivity|].
  by apply (parse_failure_aborts_before_write ex_strptime _ _ ex_bad_row
              "2019-02-08" "10:37").
Defined.

Lemma null_keys_excluded_witness :
  top3_query ex_SUM ex_ROUND
    (ex_sales_fact ++ [ex_fact None (Some 1) (dec 1000 1)])
    ex_branch_dim ex_product_dim
  = top3_query ex_SUM ex_ROUND (ex_sales_fact ++ [])
      ex_branch_dim ex_product_dim.
Proof.
  apply (null_keys_excluded ex_SUM ex_ROUND ex_sales_fact
           (ex_fact None (Some 1) (dec 1000 1)) []).
  left. reflexivity.
Defined.

Lemma dimension_extraction_deterministic_witness :
  main ex_strptime ex_csv ex_empty_store = (Return (), ex_loaded_store) ∧
  main ex_strptime ex_csv ex_loaded_store = (Return (), ex_loaded_store) ∧
  branch_df ex_df !! 1%nat
  = Some (BranchDim.Build 2 (Some "B") (Some "Mandalay")).
Proof.
  assert (main ex_strptime ex_csv ex_empty_store
          = (Return (), ex_loaded_store)) as H1 by reflexivity.
  assert (main ex_strptime ex_csv ex_loaded_store
          = (Return (), ex_loaded_store)) as H2 by reflexivity.
  split; [done|]. split; [done|].
  destruct (dimension_extraction_deterministic _ _ _ _ _ _ H1 H2)
    as [_ (df & Hdf & _ & _ & _ & Hfirst)].
  change (Some ex_df = Some df) in Hdf. injection Hdf as <-.
  destruct (Hfirst (take 2 ex_df)
              (Df.Build ex_row3 (Some (MkTimestamp 2019 1 5 13 8 0)))
              (drop 3 ex_df) eq_refl) as [Hb _].
  apply Hb. by_evaluation.
Defined.

(** The claim on rounding as the design words it fails. Loaded from the
    two-row sample, the two product lines of branch A have one sale
    each, of 1.004 and of 1.006: their sums are these two numbers, which
    differ only beyond the second decimal place, and [ROUND(., 2)]
    returns 1.0 on the first and 1.01 on the second. The ranks of the
    two product lines differ. *)
Lemma rounding_tie_counterexample :
  let sales_fact := sales_data cx_df in
  let branch_dim := branch_df cx_df in
  let product_dim := product_df cx_df in
  let rows := joined_rows sales_fact branch_dim product_dim in
  to_datetime ex_strptime cx_csv = Some cx_df ∧
  differ_only_beyond 2
    (group_sum ex_SUM rows (Some "A") (Some "Health and beauty"))
    (group_sum ex_SUM rows (Some "A") (Some "Electronic accessories")) ∧
  ∃ c1 c2,
    c1 ∈ CTE ex_SUM ex_ROUND sales_fact branch_dim product_dim ∧
    c2 ∈ CTE ex_SUM ex_ROUND sales_fact branch_dim product_dim ∧
    cte_key c1 = (Some "A", Some "Health and beauty") ∧
    cte_key c2 = (Some "A", Some "Electronic accessories") ∧
    Cte.rank c1 ≠ Cte.rank c2.
Proof.
  intros sales_fact branch_dim product_dim rows.
  split; [reflexivity|]. split.
  { vm_compute. split; reflexivity. }
  exists (Cte.Build (Some "A") (Some "Health and beauty") (dec 100 100) 2).
  exists (Cte.Build (Some "A") (Some "Electronic accessories")
            (dec 101 100) 1).
  split; [by_evaluation|]. split; [by_evaluation|]. by simpl.
Qed.

(** In the ranking example X and Y of branch A both total 300 and both
    have rank 1; Z totals 100 and has rank 2. *)
Lemma rounded_totals_tie_witness :
  let c1 := Cte.Build (Some "A") (Some "X") (dec 300 1) 1 in
  let c2 := Cte.Build (Some "A") (Some "Y") (dec 300 1) 1 in
  let c3 := Cte.Build (Some "A") (Some "Z") (dec 100 1) 2 in
  let cte := CTE ex_SUM ex_ROUND ex_sales_fact ex_branch_dim ex_product_dim in
  (c1 ∈ cte ∧ c2 ∈ cte ∧ c3 ∈ cte) ∧
  (Cte.rank c1 = Cte.rank c2 ↔ Cte.total_sales c1 = Cte.total_sales c2) ∧
  (Cte.rank c1 = Cte.rank c3 ↔ Cte.total_sales c1 = Cte.total_sales c3).
Proof.
  intros c1 c2 c3 cte.
  assert (c1 ∈ cte) as H1 by by_evaluation.
  assert (c2 ∈ cte) as H2 by by_evaluation.
  assert (c3 ∈ cte) as H3 by by_evaluation.
  split; [by repeat split|]. split.
  - exact (proj2 (proj2 (rounded_totals_tie ex_SUM ex_ROUND ex_sales_fact
                           ex_branch_dim ex_product_dim c1 c2 H1 H2
                           eq_refl))).
  - exact (proj2 (proj2 (rounded_totals_tie ex_SUM ex_ROUND ex_sales_fact
                           ex_branch_dim ex_product_dim c1 c3 H1 H3
                           eq_refl))).
Defined.

(** * The further properties on the sample data *)

Lemma renamed_columns_idempotent_witness :
  Forall ascii_name ex_header ∧
  renamed_columns (renamed_columns ex_header) = renamed_columns ex_header.
Proof.
  assert (Forall ascii_name ex_header) as Hascii
    by (unfold ascii_name; by_evaluation).
  split; [done|]. by apply (renamed_columns_idempotent ex_header).
Defined.

Lemma renamed_columns_canonical_witness :
  Forall ascii_name ex_header ∧
  Forall canonical_name (renamed_columns ex_header).
Proof.
  assert (Forall ascii_name ex_header) as Hascii
    by (unfold ascii_name; by_evaluation).
  split; [done|]. by apply (renamed_columns_canonical ex_header).
Defined.

Lemma main_full_refresh_witness :
  main ex_strptime ex_csv ex_empty_store = (Return (), ex_loaded_store) ∧
  main ex_strptime ex_csv (MkStore (Some []) None None (Some []))
  = (Return (), ex_loaded_store).
Proof.
  assert (main ex_strptime ex_csv ex_empty_store
          = (Return (), ex_loaded_store)) as Hload by reflexivity.
  split; [done|].
  by apply (main_full_refresh ex_strptime ex_csv ex_empty_store).
Defined.

(** The fact row of the third sample row: its own invoice, quantity,
    sales, timestamp and payment mode, and the keys 2, 2 and 1, each
    within the two rows of its dimension table. *)
Lemma fact_rows_complete_witness :
  sales_data ex_df !! 2%nat = Some ex_fact_row3 ∧
  ∃ r b c p,
    ex_df !! 2%nat = Some r ∧ carries r ex_fact_row3 ∧
    SalesFact.branch_id ex_fact_row3 = Some b ∧
    SalesFact.customer_id ex_fact_row3 = Some c ∧
    SalesFact.product_id ex_fact_row3 = Some p ∧
    1 ≤ b ≤ 2 ∧ 1 ≤ c ≤ 2 ∧ 1 ≤ p ≤ 2.
Proof.
  assert (sales_data ex_df !! 2%nat = Some ex_fact_row3) as Hf
    by reflexivity.
  split; [exact Hf|]. exact (fact_rows_complete ex_df 2 _ Hf).
Defined.

Lemma unique_keys_keep_cardinality_witness :
  NoDup (BranchDim.natural_key <$> ex_branch_dim) ∧
  NoDup (CustomerDim.natural_key <$> []) ∧
  NoDup (ProductDim.natural_key <$> take 2 ex_product_dim) ∧
  length (sales_data_of ex_df ex_branch_dim [] (take 2 ex_product_dim))
  = length ex_df.
Proof.
  assert (NoDup (BranchDim.natural_key <$> ex_branch_dim)) as HB
    by by_evaluation.
  assert (NoDup (CustomerDim.natural_key <$> [])) as HC by constructor.
  assert (NoDup (ProductDim.natural_key <$> take 2 ex_product_dim)) as HP
    by by_evaluation.
  split; [done|]. split; [done|]. split; [done|].
  by apply unique_keys_keep_cardinality.
Defined.

(** The sample frame with its last two rows moved to the front numbers
    branch B first, and its branch table still holds A and B once
    each. *)
Lemma dimensions_of_reordered_frame_witness :
  let df' := drop 2 ex_df ++ take 2 ex_df in
  ex_df ≡ₚ df' ∧
  BranchDim.branch_id <$> branch_df df' = [1; 2] ∧
  (λ d, (BranchDim.branch d, BranchDim.city d)) <$> branch_df df'
  = [(Some "B", Some "Mandalay"); (Some "A", Some "Yangon")] ∧
  NoDup ((λ d, (BranchDim.branch d, BranchDim.city d)) <$> branch_df df') ∧
  (λ d, (BranchDim.branch d, BranchDim.city d)) <$> branch_df ex_df
    ≡ₚ (λ d, (BranchDim.branch d, BranchDim.city d)) <$> branch_df df'.
Proof.
  intros df'.
  assert (ex_df ≡ₚ df') as Hperm by apply (Permutation_app_comm (take 2 ex_df)).
  split; [exact Hperm|]. split; [reflexivity|]. split; [reflexivity|].
  destruct (dimensions_of_reordered_frame ex_df df' Hperm)
    as ((_ & Hnd & Hkeys) & _).
  split; [exact Hnd|exact Hkeys].
Defined.

(** The joined rows of the sample load carry the branch, city, product
    line, unit price and sales of the four sample rows, in order. *)
Lemma star_schema_round_trip_witness :
  (λ j : joined, (BranchDim.branch j.1.2, BranchDim.city j.1.2,
                  ProductDim.product_line j.2, ProductDim.unit_price j.2,
                  SalesFact.sales j.1.1))
    <$> from_joins (sales_data ex_df) (branch_df ex_df) (product_df ex_df)
  = [ (Some "A", Some "Yangon", Some "Health and beauty", dec 7469 100,
       dec 1004 1000);
      (Some "A", Some "Yangon", Some "Electronic accessories", dec 1528 100,
       dec 1006 1000);
      (Some "B", Some "Mandalay", Some "Health and beauty", dec 7469 100,
       dec 2 1);
      (Some "A", Some "Yangon", Some "Health and beauty", dec 7469 100,
       dec 3 1) ].
Proof.
  destruct (star_schema_round_trip ex_df) as [_ Hrows].
  rewrite Hrows. reflexivity.
Defined.

(** The report of the sample load: at branch A the product line health
    and beauty totals 4.0 (1.004 and 3) and electronic accessories 1.01
    (1.006); at branch B health and beauty totals 2. *)
Lemma report_of_load_witness :
  let report :=
    top3_query ex_SUM ex_ROUND (sales_data ex_df) (branch_df ex_df)
      (product_df ex_df) in
  main ex_strptime ex_csv ex_empty_store = (Return (), ex_loaded_store) ∧
  generate_report ex_SUM ex_ROUND ex_loaded_store
  = (Return report, ex_loaded_store) ∧
  (∀ t, Report.Build (Some "A") (Some "Health and beauty") t ∈ report
        ↔ t = dec 4 1) ∧
  (∀ t, Report.Build (Some "A") (Some "Electronic accessories") t ∈ report
        ↔ t = dec 101 100) ∧
  (∀ t, Report.Build (Some "B") (Some "Health and beauty") t ∈ report
        ↔ t = dec 2 1) ∧
  (∀ t, Report.Build (Some "B") (Some "Electronic accessories") t ∉ report) ∧
  (∀ t, Report.Build (Some "B") (Some "Health and beauty") t ∈ report →
        t = whole (whole_sum [Some 2])).
Proof.
  intros report.
  assert (main ex_strptime ex_csv ex_empty_store
          = (Return (), ex_loaded_store)) as Hload by reflexivity.
  assert (generate_report ex_SUM ex_ROUND ex_loaded_store
          = (Return report, ex_loaded_store)) as Hreport by reflexivity.
  split; [exact Hload|]. split; [exact Hreport|].
  destruct (report_of_load ex_SUM ex_ROUND ex_strptime ex_csv _ _ _ _
              Hload Hreport) as (_ & _ & _ & Hin & Hsum).
  assert (csv_total ex_SUM ex_ROUND ex_csv (Some "A")
            (Some "Health and beauty") = dec 4 1) as HAH by by_evaluation.
  assert (csv_total ex_SUM ex_ROUND ex_csv (Some "A")
            (Some "Electronic accessories") = dec 101 100) as HAE
    by by_evaluation.
  assert (csv_total ex_SUM ex_ROUND ex_csv (Some "B")
            (Some "Health and beauty") = dec 2 1) as HBH by by_evaluation.
  split; [|split; [|split; [|split]]].
  - intros t. rewrite Hin, HAH. split; [by intros (_ & -> & _)|].
    intros ->. split; [unfold csv_in_group; by_evaluation|].
    split; [reflexivity|by_evaluation].
  - intros t. rewrite Hin, HAE. split; [by intros (_ & -> & _)|].
    intros ->. split; [unfold csv_in_group; by_evaluation|].
    split; [reflexivity|by_evaluation].
  - intros t. rewrite Hin, HBH. split; [by intros (_ & -> & _)|].
    intros ->. split; [unfold csv_in_group; by_evaluation|].
    split; [reflexivity|by_evaluation].
  - intros t (Hg & _)%Hin. revert Hg. unfold csv_in_group. by_evaluation.
  - intros t Ht.
    apply (Hsum ex_exact_on_whole_numbers (Some "B")
             (Some "Health and beauty") t [Some 2] Ht); by_evaluation.
Defined.

Lemma every_branch_reported_witness :
  let rows := from_joins ex_sales_fact ex_branch_dim ex_product_dim in
  in_group rows (Some "A") (Some "W") ∧
  ∃ p', Report.Build (Some "A") p'
          (group_total ex_SUM ex_ROUND rows (Some "A") p')
          ∈ top3_query ex_SUM ex_ROUND ex_sales_fact ex_branch_dim
              ex_product_dim.
Proof.
  intros rows.
  assert (in_group rows (Some "A") (Some "W")) as Hg
    by (unfold in_group; by_evaluation).
  split; [done|].
  destruct (every_branch_reported ex_SUM ex_ROUND ex_sales_fact ex_branch_dim
              ex_product_dim (Some "A") (Some "W") Hg) as (p' & Hp' & _).
  by exists p'.
Defined.

Lemma dimension_rows_referenced_witness :
  let b := BranchDim.Build 2 (Some "B") (Some "Mandalay") in
  b ∈ branch_df ex_df ∧
  ∃ f, f ∈ sales_data ex_df ∧ SalesFact.branch_id f = Some 2.
Proof.
  intros b. assert (b ∈ branch_df ex_df) as Hb by by_evaluation.
  split; [done|].
  destruct (dimension_rows_referenced ex_df) as [Hbranch _].
  by apply (Hbranch b).
Defined.

Lemma at_least_three_rows_witness :
  let rows := from_joins ex_sales_fact ex_branch_dim ex_product_dim in
  (3 ≤ size (location_categories rows (Some "A")))%nat ∧
  (3 ≤ length (filter (λ r, Report.branch r = Some "A")
                 (top3_query ex_SUM ex_ROUND ex_sales_fact ex_branch_dim
                    ex_product_dim)))%nat.
Proof.
  intros rows.
  assert ((3 ≤ size (location_categories rows (Some "A")))%nat) as Hsize
    by by_evaluation.
  split; [done|].
  by apply (at_least_three_rows ex_SUM ex_ROUND ex_sales_fact ex_branch_dim
              ex_product_dim).
Defined.
